(** * GPS Speed Monitor mini server (server.js): model and properties

    The Express handlers of [server.js] are embedded as functions over an
    explicit store: a handler takes the store and the parsed request and
    returns what it sends, what it logs and the new store.

    Values.  What the body and query parsers hand to a handler is an
    inductive type of JSON values, with [Undefined] for a property that
    is not there.  Strings are byte strings; upper-casing and white space
    are those of ASCII.

    Numbers.  A number is NaN, an infinity or a finite decimal
    [m / 10^k].  Arithmetic on finite numbers is exact: rounding to
    binary64, overflow and the sign of zero are outside the model, and so
    are row ids that a double does not hold exactly.

    Store.  The table [violations] is a list of records typed by the
    columns of CREATE TABLE, with the AUTOINCREMENT counter; the
    statements of the driver are functions that return a new store or one
    of the errors the driver raises.  The time of an insert is an input of
    the transition. *)

From Stdlib Require Import ZArith List String Ascii Bool Lia DecimalString.
From Stdlib Require Import Permutation DecimalPos DecimalN Sorted.
Import ListNotations.

Local Open Scope string_scope.
Local Open Scope Z_scope.
Local Set Warnings "-register-all".

(** ** Characters and digit strings *)

Module Chars.

Definition code (c : ascii) : Z := Z.of_nat (nat_of_ascii c).

Definition of_code (z : Z) : ascii := ascii_of_nat (Z.to_nat z).

(** StrWhiteSpaceChar restricted to ASCII: TAB, LF, VT, FF, CR, SP. *)
Definition is_space (c : ascii) : bool :=
  let n := code c in ((9 <=? n) && (n <=? 13)) || (n =? 32).

(** Value of [c] as a digit of the given radix (2 to 36), if it is one. *)
Definition digit_value (radix : Z) (c : ascii) : option Z :=
  let n := code c in
  let v := if (48 <=? n) && (n <=? 57) then n - 48
           else if (97 <=? n) && (n <=? 122) then n - 87
           else if (65 <=? n) && (n <=? 90) then n - 55
           else 99 in
  if v <? radix then Some v else None.

Fixpoint drop_spaces (l : list ascii) : list ascii :=
  match l with
  | c :: l' => if is_space c then drop_spaces l' else l
  | [] => []
  end.

(** Longest run of radix digits at the head of [l], folded into [acc];
    returns the value, the number of digits read and the rest. *)
Fixpoint read_digits (radix : Z) (acc : Z) (n : nat) (l : list ascii)
  : Z * nat * list ascii :=
  match l with
  | c :: l' =>
      match digit_value radix c with
      | Some v => read_digits radix (acc * radix + v) (S n) l'
      | None => (acc, n, l)
      end
  | [] => (acc, n, [])
  end.

Fixpoint starts_with (p l : list ascii) : option (list ascii) :=
  match p, l with
  | [], _ => Some l
  | a :: p', b :: l' => if Ascii.eqb a b then starts_with p' l' else None
  | _ :: _, [] => None
  end.

Definition upper (c : ascii) : ascii :=
  let n := code c in
  if (97 <=? n) && (n <=? 122) then of_code (n - 32) else c.

Definition lower (c : ascii) : ascii :=
  let n := code c in
  if (65 <=? n) && (n <=? 90) then of_code (n + 32) else c.

End Chars.

(** [String.prototype.toUpperCase] on the ASCII letters; other bytes are
    left as they are. *)
Definition toUpperCase (s : string) : string :=
  string_of_list_ascii (map Chars.upper (list_ascii_of_string s)).

(** Decimal digits of a natural number, ["0"] for zero. *)
Definition digits (z : Z) : string :=
  NilEmpty.string_of_uint (N.to_uint (Z.to_N z)).

(** The value of a numeral read digit by digit from [acc]. *)
Fixpoint horner (acc : Z) (u : Decimal.uint) : Z :=
  match u with
  | Decimal.Nil => acc
  | Decimal.D0 u' => horner (acc * 10 + 0) u'
  | Decimal.D1 u' => horner (acc * 10 + 1) u'
  | Decimal.D2 u' => horner (acc * 10 + 2) u'
  | Decimal.D3 u' => horner (acc * 10 + 3) u'
  | Decimal.D4 u' => horner (acc * 10 + 4) u'
  | Decimal.D5 u' => horner (acc * 10 + 5) u'
  | Decimal.D6 u' => horner (acc * 10 + 6) u'
  | Decimal.D7 u' => horner (acc * 10 + 7) u'
  | Decimal.D8 u' => horner (acc * 10 + 8) u'
  | Decimal.D9 u' => horner (acc * 10 + 9) u'
  end.

Fixpoint zeros (n : nat) : string :=
  match n with
  | O => ""
  | S n' => String "0" (zeros n')
  end.

Definition strip_trailing_zeros (s : string) : string :=
  let fix strip (l : list ascii) :=
    match l with
    | c :: l' => if Ascii.eqb c "0" then strip l' else l
    | [] => []
    end in
  string_of_list_ascii (rev (strip (rev (list_ascii_of_string s)))).

Definition len (s : string) : Z := Z.of_nat (String.length s).

Definition take (n : Z) (s : string) : string := substring 0 (Z.to_nat n) s.

Definition drop (n : Z) (s : string) : string :=
  substring (Z.to_nat n) (String.length s - Z.to_nat n) s.

(** ** Numbers *)

Inductive number :=
| NaN
| Infinity (negative : bool)
| Finite (m : Z) (k : nat).   (* m / 10^k, with k = 0 or 10 not dividing m *)

Module Number.

Fixpoint normalize (m : Z) (k : nat) : number :=
  match k with
  | O => Finite m 0
  | S k' => if m mod 10 =? 0 then normalize (m / 10) k' else Finite m k
  end.

(** [m / 10^k] written with denominator [10^j], for [k <= j]. *)
Definition rescale (m : Z) (k j : nat) : Z := m * 10 ^ Z.of_nat (j - k).

Definition is_nan (a : number) : bool :=
  match a with NaN => true | _ => false end.

(** The [<] of the language on numbers; false when either side is NaN. *)
Definition ltb (a b : number) : bool :=
  match a, b with
  | NaN, _ | _, NaN => false
  | Infinity s, Infinity t => s && negb t
  | Infinity s, Finite _ _ => s
  | Finite _ _, Infinity t => negb t
  | Finite m k, Finite n j =>
      let s := Nat.max k j in rescale m k s <? rescale n j s
  end.

(** The binary [-] on numbers. *)
Definition sub (a b : number) : number :=
  match a, b with
  | NaN, _ | _, NaN => NaN
  | Infinity s, Infinity t => if Bool.eqb s t then NaN else Infinity s
  | Infinity s, Finite _ _ => Infinity s
  | Finite _ _, Infinity t => Infinity (negb t)
  | Finite m k, Finite n j =>
      let s := Nat.max k j in normalize (rescale m k s - rescale n j s) s
  end.

(** [Math.min] of two numbers. *)
Definition min (a b : number) : number :=
  match a, b with
  | NaN, _ | _, NaN => NaN
  | _, _ => if ltb b a then b else a
  end.

(** The integer a number denotes, when it denotes one. *)
Definition to_Z (a : number) : option Z :=
  match a with
  | Finite m O => Some m
  | _ => None
  end.

(** Exponent part ["e+21"], ["e-7"] of the scientific notations. *)
Definition exponent (e : Z) (min_digits : nat) : string :=
  let d := digits (Z.abs e) in
  "e" ++ (if e <? 0 then "-" else "+")
      ++ zeros (min_digits - String.length d) ++ d.

(** Number::toString (radix 10) of a positive finite number whose decimal
    digits without trailing zeros are [ds] and whose decimal point sits
    [n] places after the first digit of [ds]. *)
Definition positional (ds : string) (n : Z) : string :=
  let k := len ds in
  if (k <=? n) && (n <=? 21) then ds ++ zeros (Z.to_nat (n - k))
  else if (0 <? n) && (n <=? 21) then take n ds ++ "." ++ drop n ds
  else if (-6 <? n) && (n <=? 0) then "0." ++ zeros (Z.to_nat (- n)) ++ ds
  else if k =? 1 then ds ++ exponent (n - 1) 1
  else take 1 ds ++ "." ++ drop 1 ds ++ exponent (n - 1) 1.

Definition toString (a : number) : string :=
  match a with
  | NaN => "NaN"
  | Infinity false => "Infinity"
  | Infinity true => "-Infinity"
  | Finite m k =>
      if m =? 0 then "0"
      else
        let all := digits (Z.abs m) in
        let body := positional (strip_trailing_zeros all)
                               (len all - Z.of_nat k) in
        if m <? 0 then "-" ++ body else body
  end.

End Number.

(** ** Numeric literals in strings *)

Module Literal.

Import Chars.

Definition neg (a : number) : number :=
  match a with
  | NaN => NaN
  | Infinity s => Infinity (negb s)
  | Finite m k => Finite (- m) k
  end.

(** [m * 10^(e - nf)]: the digits [m], of which [nf] follow the decimal
    point, scaled by the exponent [e]. *)
Definition make (m : Z) (nf : nat) (e : Z) : number :=
  let p := e - Z.of_nat nf in
  if 0 <=? p then Finite (m * 10 ^ p) 0 else Number.normalize m (Z.to_nat (- p)).

Definition sign (l : list ascii) : bool * list ascii :=
  match l with
  | "+"%char :: r => (false, r)
  | "-"%char :: r => (true, r)
  | _ => (false, l)
  end.

(** ExponentPart, read only when it is complete. *)
Definition exponent_part (l : list ascii) : Z * list ascii :=
  match l with
  | c :: l1 =>
      if Ascii.eqb c "e" || Ascii.eqb c "E" then
        let '(s, l2) := sign l1 in
        let '(v, n, l3) := read_digits 10 0 0 l2 in
        match n with
        | O => (0, l)
        | S _ => (if s then - v else v, l3)
        end
      else (0, l)
  | [] => (0, [])
  end.

(** Longest prefix of [l] that is a StrUnsignedDecimalLiteral. *)
Definition unsigned_decimal (l : list ascii) : option (number * list ascii) :=
  match starts_with (list_ascii_of_string "Infinity") l with
  | Some r => Some (Infinity false, r)
  | None =>
      let '(i, ni, l1) := read_digits 10 0 0 l in
      let '(m, nf, l2) :=
        match l1 with
        | "."%char :: r =>
            let '(m, nf, r') := read_digits 10 i 0 r in
            match ni, nf with
            | O, O => (i, O, l1)
            | _, _ => (m, nf, r')
            end
        | _ => (i, O, l1)
        end in
      match ni, nf with
      | O, O => None
      | _, _ => let '(e, l3) := exponent_part l2 in Some (make m nf e, l3)
      end
  end.

Definition signed_decimal (l : list ascii) : option (number * list ascii) :=
  let '(s, l1) := sign l in
  match unsigned_decimal l1 with
  | Some (a, r) => Some (if s then neg a else a, r)
  | None => None
  end.

(** [parseFloat] on a string. *)
Definition parseFloat (s : string) : number :=
  match signed_decimal (drop_spaces (list_ascii_of_string s)) with
  | Some (a, _) => a
  | None => NaN
  end.

(** [parseInt] on a string, no radix given. *)
Definition parseInt (s : string) : number :=
  let '(neg, l1) := sign (drop_spaces (list_ascii_of_string s)) in
  let '(radix, l2) :=
    match l1 with
    | "0"%char :: x :: r =>
        if Ascii.eqb x "x" || Ascii.eqb x "X" then (16, r) else (10, l1)
    | _ => (10, l1)
    end in
  let '(v, n, _) := read_digits radix 0 0 l2 in
  match n with
  | O => NaN
  | S _ => Finite (if neg then - v else v) 0
  end.

(** StringToNumber: the whole string, trimmed, must be a numeric literal;
    the empty string is 0. *)
Definition toNumber (s : string) : number :=
  let l := rev (drop_spaces (rev (drop_spaces (list_ascii_of_string s)))) in
  let based (radix : Z) (r : list ascii) :=
    match read_digits radix 0 0 r with
    | (v, S _, []) => Finite v 0
    | _ => NaN
    end in
  match l with
  | [] => Finite 0 0
  | "0"%char :: x :: r =>
      match lower x with
      | "x"%char => based 16 r
      | "o"%char => based 8 r
      | "b"%char => based 2 r
      | _ => match signed_decimal l with Some (a, []) => a | _ => NaN end
      end
  | _ => match signed_decimal l with Some (a, []) => a | _ => NaN end
  end.

End Literal.

(** ** Values *)

(** What [express.json()] and the query parser hand to a handler: the JSON
    values, and [Undefined] for a property that is not there. *)
Inductive value :=
| Undefined
| Null
| Bool (b : bool)
| Num (n : number)
| Str (s : string)
| Arr (items : list value)
| Obj (props : list (string * value)).

(** The own properties of a parsed object: [req.body], [req.query]. *)
Definition object := list (string * value).

Fixpoint get (o : object) (key : string) : value :=
  match o with
  | (k, v) :: o' => if String.eqb k key then v else get o' key
  | [] => Undefined
  end.

Definition has (o : object) (key : string) : bool :=
  existsb (fun p => String.eqb (fst p) key) o.

Definition typeof (v : value) : string :=
  match v with
  | Undefined => "undefined"
  | Null => "object"
  | Bool _ => "boolean"
  | Num _ => "number"
  | Str _ => "string"
  | Arr _ | Obj _ => "object"
  end.

(** ToBoolean. *)
Definition truthy (v : value) : bool :=
  match v with
  | Undefined | Null => false
  | Bool b => b
  | Num NaN => false
  | Num (Finite m _) => negb (m =? 0)
  | Num (Infinity _) => true
  | Str s => negb (String.eqb s "")
  | Arr _ | Obj _ => true
  end.

(** [v == null]. *)
Definition nullish (v : value) : bool :=
  match v with
  | Undefined | Null => true
  | _ => false
  end.

(** ToString; [None] is the TypeError of an object that cannot be converted
    to a primitive.  A parsed object has no callable property, so an own
    [toString] hides [Object.prototype.toString] and the conversion fails;
    without it the result is ["[object Object]"].  Arrays are joined with
    commas, [null] and [undefined] items giving the empty string. *)
Fixpoint ToString (v : value) : option string :=
  match v with
  | Undefined => Some "undefined"
  | Null => Some "null"
  | Bool true => Some "true"
  | Bool false => Some "false"
  | Num n => Some (Number.toString n)
  | Str s => Some s
  | Arr items =>
      (fix join (l : list value) : option string :=
         match l with
         | [] => Some ""
         | x :: l' =>
             match (if nullish x then Some "" else ToString x) with
             | None => None
             | Some s =>
                 match l' with
                 | [] => Some s
                 | _ :: _ =>
                     match join l' with
                     | None => None
                     | Some r => Some (s ++ "," ++ r)
                     end
                 end
             end
         end) items
  | Obj props => if has props "toString" then None else Some "[object Object]"
  end.

(** ToNumber. *)
Definition ToNumber (v : value) : option number :=
  match v with
  | Undefined => Some NaN
  | Null => Some (Finite 0 0)
  | Bool true => Some (Finite 1 0)
  | Bool false => Some (Finite 0 0)
  | Num n => Some n
  | Str s => Some (Literal.toNumber s)
  | Arr _ | Obj _ => option_map Literal.toNumber (ToString v)
  end.

(** [parseFloat(v)]: the argument is converted to a string and the longest
    numeric prefix is read.  On a number the two steps cancel (the string
    of a number reads back as that number), so it is returned as it is. *)
Definition parseFloat (v : value) : option number :=
  match v with
  | Num n => Some n
  | _ => option_map Literal.parseFloat (ToString v)
  end.

(** [parseInt(v)]. *)
Definition parseInt (v : value) : option number :=
  option_map Literal.parseInt (ToString v).

(** [a - b]. *)
Definition minus (a b : value) : option number :=
  match ToNumber a, ToNumber b with
  | Some x, Some y => Some (Number.sub x y)
  | _, _ => None
  end.

(** [Array.prototype.includes] on an array of strings: SameValueZero. *)
Definition includes (l : list string) (v : value) : bool :=
  match v with
  | Str s => existsb (String.eqb s) l
  | _ => false
  end.

(** ** The store: better-sqlite3 over the table [violations] *)

(** The object [row] that the POST handler hands to [stmtInsert.run]. *)
Module Row.
Record t := make {
  device : value;
  speed : number;
  speed_limit : number;
  excess : number;
  tier : string;
  lat : option number;        (* [None] is [null] *)
  lon : option number
}.
End Row.

(** A row of the table, typed by the columns of CREATE TABLE. *)
Module Violation.
Record t := make {
  id : Z;                     (* INTEGER PRIMARY KEY AUTOINCREMENT *)
  device : string;            (* TEXT NOT NULL *)
  speed : number;             (* REAL NOT NULL *)
  speed_limit : number;       (* REAL NOT NULL *)
  excess : number;            (* REAL NOT NULL *)
  tier : string;              (* TEXT NOT NULL *)
  lat : option number;        (* REAL, [None] is NULL *)
  lon : option number;        (* REAL *)
  received_at : string        (* TEXT NOT NULL DEFAULT datetime('now','localtime') *)
}.
End Violation.

Module Sqlite.

(** A bound parameter. *)
Inductive sql :=
| NULL
| REAL (n : number)
| TEXT (s : string).

Inductive error :=
| Unbindable                   (* the driver's TypeError *)
| NotNull (column : string)    (* SQLITE_CONSTRAINT_NOTNULL *)
| Mismatch.                    (* SQLITE_MISMATCH *)

Definition message (e : error) : string :=
  match e with
  | Unbindable =>
      "SQLite3 can only bind numbers, strings, bigints, buffers, and null"
  | NotNull column => "NOT NULL constraint failed: violations." ++ column
  | Mismatch => "datatype mismatch"
  end.

Definition result (A : Type) : Type := error + A.

Definition ret {A : Type} (a : A) : result A := inr a.

Definition fail {A : Type} (e : error) : result A := inl e.

Definition bind_result {A B : Type} (m : result A) (k : A -> result B)
  : result B :=
  match m with
  | inl e => inl e
  | inr a => k a
  end.

Notation "x <- m ;; k" := (bind_result m (fun x => k))
  (at level 61, m at next level, right associativity).

(** How the driver binds a value: a number as a double, which SQLite
    stores as NULL when it is NaN; a string as text; [null] as NULL;
    anything else is refused. *)
Definition bind (v : value) : option sql :=
  match v with
  | Num NaN => Some NULL
  | Num n => Some (REAL n)
  | Str s => Some (TEXT s)
  | Null => Some NULL
  | Undefined | Bool _ | Arr _ | Obj _ => None
  end.

(** The text SQLite gives a REAL that lands in a TEXT column: fifteen
    significant digits, always with a decimal point. *)
Definition real_text (a : number) : string :=
  match a with
  | NaN => "NaN"               (* not reached: NaN is bound as NULL *)
  | Infinity false => "Inf"
  | Infinity true => "-Inf"
  | Finite m k =>
      if m =? 0 then "0.0"
      else
        let all := digits (Z.abs m) in
        let sh := Z.max (len all - 15) 0 in
        let half := if 0 <? sh then 5 * 10 ^ (sh - 1) else 0 in
        let kept := digits ((Z.abs m + half) / 10 ^ sh) in
        let ds := strip_trailing_zeros kept in
        let n := len kept + sh - Z.of_nat k in
        let body :=
          if (n <? -3) || (15 <? n) then
            take 1 ds ++ "." ++ (if len ds =? 1 then "0" else drop 1 ds)
                   ++ Number.exponent (n - 1) 2
          else if len ds <=? n then ds ++ zeros (Z.to_nat (n - len ds)) ++ ".0"
          else if 0 <? n then take n ds ++ "." ++ drop n ds
          else "0." ++ zeros (Z.to_nat (- n)) ++ ds in
        if m <? 0 then "-" ++ body else body
  end.

(** A value stored in a TEXT NOT NULL column. *)
Definition text_not_null (column : string) (v : value) : result string :=
  match bind v with
  | None => fail Unbindable
  | Some NULL => fail (NotNull column)
  | Some (TEXT s) => ret s
  | Some (REAL n) => ret (real_text n)
  end.

(** A number stored in a REAL NOT NULL column. *)
Definition real_not_null (column : string) (a : number) : result number :=
  if Number.is_nan a then fail (NotNull column) else ret a.

(** A number or [null] stored in a REAL column. *)
Definition real_or_null (a : option number) : option number :=
  match a with
  | Some n => if Number.is_nan n then None else Some n
  | None => None
  end.

Record db := mkdb {
  violations : list Violation.t;   (* in rowid order *)
  sqlite_sequence : Z              (* largest rowid ever given out *)
}.

Definition empty : db := mkdb [] 0.

Definition max_rowid (l : list Violation.t) : Z :=
  fold_right (fun v acc => Z.max (Violation.id v) acc) 0 l.

(** AUTOINCREMENT: one more than the largest rowid that ever existed. *)
Definition next_rowid (d : db) : Z :=
  Z.max (max_rowid (violations d)) (sqlite_sequence d) + 1.

(** [stmtInsert.run(row)] when the local time is [now]: the new store and
    [lastInsertRowid].  A failed statement leaves the store as it was. *)
Definition stmtInsert_run (now : string) (d : db) (r : Row.t)
  : result (db * Z) :=
  device <- text_not_null "device" (Row.device r) ;;
  speed <- real_not_null "speed" (Row.speed r) ;;
  speed_limit <- real_not_null "speed_limit" (Row.speed_limit r) ;;
  excess <- real_not_null "excess" (Row.excess r) ;;
  let id := next_rowid d in
  let v := Violation.make id device speed speed_limit excess (Row.tier r)
             (real_or_null (Row.lat r)) (real_or_null (Row.lon r)) now in
  ret (mkdb (violations d ++ [v]) id, id).

(** [stmtById.get(n)]: the row whose id equals the bound number. *)
Definition stmtById_get (d : db) (n : number) : option Violation.t :=
  match Number.to_Z n with
  | Some z => find (fun v => Violation.id v =? z) (violations d)
  | None => None
  end.

(** ORDER BY received_at DESC, by insertion into a descending list; rows
    with the same timestamp keep their rowid order (the statement does not
    fix their order). *)
Fixpoint insert_desc (v : Violation.t) (l : list Violation.t)
  : list Violation.t :=
  match l with
  | [] => [v]
  | w :: l' =>
      if String.ltb (Violation.received_at w) (Violation.received_at v)
      then v :: l
      else w :: insert_desc v l'
  end.

Definition order_by_received_at_desc (l : list Violation.t)
  : list Violation.t :=
  fold_right insert_desc [] l.

(** LIMIT with a bound number: it must come out as a 64-bit integer, a
    negative one meaning no limit. *)
Definition limit (n : number) (l : list Violation.t)
  : result (list Violation.t) :=
  match Number.to_Z n with
  | Some z =>
      if (- 2 ^ 63 <? z) && (z <? 2 ^ 63)
      then ret (if z <? 0 then l else firstn (Z.to_nat z) l)
      else fail Mismatch
  | None => fail Mismatch
  end.

(** One [column = ?] term of a WHERE clause, the parameter being text. *)
Inductive term :=
| tier_is (s : string)
| device_is (s : string).

Definition holds (v : Violation.t) (t : term) : bool :=
  match t with
  | tier_is s => String.eqb (Violation.tier v) s
  | device_is s => String.eqb (Violation.device v) s
  end.

(** [SELECT * FROM violations WHERE t1 AND ... ORDER BY received_at DESC
    LIMIT ?]. *)
Definition select (d : db) (terms : list term) (n : number)
  : result (list Violation.t) :=
  limit n (order_by_received_at_desc
             (filter (fun v => forallb (holds v) terms) (violations d))).

(** [DELETE FROM violations]; the AUTOINCREMENT counter is kept. *)
Definition delete_all (d : db) : db := mkdb [] (sqlite_sequence d).

Definition count_tier (s : string) (l : list Violation.t) : Z :=
  Z.of_nat (List.length (filter (fun v => String.eqb (Violation.tier v) s) l)).

(** SUM(CASE WHEN tier = s THEN 1 ELSE 0 END): NULL over no rows. *)
Definition sum_case_tier (s : string) (l : list Violation.t) : option Z :=
  match l with
  | [] => None
  | _ :: _ => Some (count_tier s l)
  end.

(** The counting columns of [stmtStats]; the columns avg_excess and
    max_speed (rounded floating-point aggregates) and the number of
    distinct devices are not part of the model. *)
Record stats := mkstats {
  total : Z;
  severe : option Z;
  moderate : option Z;
  minor : option Z
}.

Definition stmtStats_get (d : db) : stats :=
  let l := violations d in
  mkstats (Z.of_nat (List.length l))
          (sum_case_tier "SEVERE" l)
          (sum_case_tier "MODERATE" l)
          (sum_case_tier "MINOR" l).

End Sqlite.

(** ** server.js *)

Import Sqlite.

Definition and_then {A B : Type} (m : option A) (k : A -> option B)
  : option B :=
  match m with
  | Some a => k a
  | None => None
  end.

Notation "'let?' x := m 'in' k" := (and_then m (fun x => k))
  (at level 10, x name, m at level 100, k at level 200).

(** [process.env.ADMIN_KEY], [None] when the variable is not set. *)
Record env := mkenv { env_ADMIN_KEY : option string }.

(** [process.env.ADMIN_KEY || 'changeme']. *)
Definition ADMIN_KEY (e : env) : string :=
  match env_ADMIN_KEY e with
  | Some s => if String.eqb s "" then "changeme" else s
  | None => "changeme"
  end.

Definition tiers : list string := ["MINOR"; "MODERATE"; "SEVERE"].

Definition speed_error : string := "speed must be a number".
Definition limit_error : string := "limit must be a number".
Definition tier_required : string := "tier is required".
Definition tier_enum_error : string := "tier must be MINOR, MODERATE or SEVERE".

(** [errors.push(msg)] under a condition. *)
Definition push_if (c : bool) (msg : string) (errors : list string)
  : list string :=
  if c then errors ++ [msg] else errors.

Definition validateViolation (body : object) : list string :=
  let errors := [] in
  let errors :=
    push_if (negb (String.eqb (typeof (get body "speed")) "number"))
            speed_error errors in
  let errors :=
    push_if (negb (String.eqb (typeof (get body "limit")) "number"))
            limit_error errors in
  let errors := push_if (negb (truthy (get body "tier"))) tier_required errors in
  let errors :=
    push_if (negb (includes tiers (get body "tier"))) tier_enum_error errors in
  errors.

(** The JSON bodies the handlers send. *)
Inductive json_body :=
| Errors (errors : list string)                  (* { ok: false, errors } *)
| Error (error : string)                         (* { ok: false, error } *)
| Created (id : Z)                               (* { ok: true, id } *)
| Listing (count : nat) (violations : list Violation.t)
                                      (* { ok: true, count, violations } *)
| Found (violation : Violation.t)                (* { ok: true, violation } *)
| Message (message : string).                    (* { ok: true, message } *)

Definition ok (b : json_body) : bool :=
  match b with
  | Errors _ | Error _ => false
  | Created _ | Listing _ _ | Found _ | Message _ => true
  end.

(** What a handler does with [res]: it sends a status and a body, or an
    exception leaves it and Express answers in its place. *)
Inductive reply :=
| Json (status : Z) (body : json_body)
| Throws.

Record outcome := mkoutcome {
  sent : reply;
  console : list string;       (* lines given to console.log / console.error *)
  store : db
}.

(** A destructuring default: taken when the property is [undefined]. *)
Definition default (v d : value) : value :=
  match v with
  | Undefined => d
  | _ => v
  end.

(** The object literal [row] of the POST handler, its properties evaluated
    in order; [None] when a conversion throws. *)
Definition make_row (body : object) : option Row.t :=
  let device := default (get body "device") (Str "UNKNOWN") in
  let speed := get body "speed" in
  let limit := get body "limit" in
  let excess := get body "excess" in
  let tier := get body "tier" in
  let lat := default (get body "lat") Null in
  let lon := default (get body "lon") Null in
  let? r_speed := parseFloat speed in
  let? r_speed_limit := parseFloat limit in
  let? excess' := (if nullish excess
                  then option_map Num (minus speed limit)
                  else Some excess) in
  let? r_excess := parseFloat excess' in
  let? r_tier := option_map toUpperCase (ToString tier) in
  let? r_lat := (if negb (nullish lat)
                then option_map Some (parseFloat lat) else Some None) in
  let? r_lon := (if negb (nullish lon)
                then option_map Some (parseFloat lon) else Some None) in
  Some (Row.make device r_speed r_speed_limit r_excess r_tier r_lat r_lon).

(** The line logged after a successful insert. *)
Definition post_log (id : Z) (body : object) : option string :=
  let? device := ToString (default (get body "device") (Str "UNKNOWN")) in
  let? tier := ToString (get body "tier") in
  let? speed := ToString (get body "speed") in
  let? limit := ToString (get body "limit") in
  Some ("[POST] #" ++ Number.toString (Finite id 0) ++ " | " ++ device
          ++ " | " ++ tier ++ " | " ++ speed ++ " km/h (limit " ++ limit ++ ")").

(** POST /api/violation *)
Definition post_violation (now : string) (d : db) (body : object) : outcome :=
  let errors := validateViolation body in
  match errors with
  | _ :: _ => mkoutcome (Json 400 (Errors errors)) [] d
  | [] =>
      match make_row body with
      | None => mkoutcome Throws [] d
      | Some row =>
          match stmtInsert_run now d row with
          | inr (d', id) =>
              match post_log id body with
              | Some line => mkoutcome (Json 201 (Created id)) [line] d'
              | None =>
                  mkoutcome (Json 500 (Error "Database error"))
                    ["[POST] DB error: Cannot convert object to primitive value"]
                    d'
              end
          | inl err =>
              mkoutcome (Json 500 (Error "Database error"))
                ["[POST] DB error: " ++ message err] d
          end
      end
  end.

(** [q ? String(q).toUpperCase() : null] and [q ? String(q) : null]. *)
Definition filter_param (upper : bool) (q : value) : option value :=
  if truthy q
  then option_map (fun s => Str (if upper then toUpperCase s else s))
                  (ToString q)
  else Some Null.

(** The WHERE terms pushed for the two filters. *)
Definition where_terms (tier device : value) : list term :=
  (match tier with
   | Str s => if truthy tier then [tier_is s] else []
   | _ => []
   end)
  ++
  (match device with
   | Str s => if truthy device then [device_is s] else []
   | _ => []
   end).

(** [Math.min(parseInt(req.query.limit || '200'), 1000)] *)
Definition effective_limit (q : value) : option number :=
  option_map (fun n => Number.min n (Finite 1000 0))
             (parseInt (if truthy q then q else Str "200")).

(** GET /api/violations *)
Definition get_violations (d : db) (query : object) : outcome :=
  match
    (let? limit := effective_limit (get query "limit") in
     let? tier := filter_param true (get query "tier") in
     let? device := filter_param false (get query "device") in
     Some (limit, where_terms tier device))
  with
  | None => mkoutcome Throws [] d
  | Some (limit, terms) =>
      match select d terms limit with
      | inr rows => mkoutcome (Json 200 (Listing (List.length rows) rows)) [] d
      | inl err => mkoutcome (Json 500 (Error (message err))) [] d
      end
  end.

(** GET /api/violations/:id *)
Definition get_violation (d : db) (id : string) : outcome :=
  match stmtById_get d (Literal.parseInt id) with
  | None => mkoutcome (Json 404 (Error "Not found")) [] d
  | Some row => mkoutcome (Json 200 (Found row)) [] d
  end.

(** [v !== s] for a string [s]. *)
Definition differs (v : value) (s : string) : bool :=
  match v with
  | Str t => negb (String.eqb t s)
  | _ => true
  end.

(** DELETE /api/violations *)
Definition delete_violations (e : env) (d : db) (query : object) : outcome :=
  if differs (get query "key") (ADMIN_KEY e)
  then mkoutcome (Json 401 (Error "Unauthorized")) [] d
  else mkoutcome (Json 200 (Message "All violations deleted"))
         ["[ADMIN] Violations table cleared"] (delete_all d).

(** The requests that reach the store, and the server as a transition
    function; [now] is the store's local time when the request runs. *)
Inductive request :=
| POST_violation (body : object)
| GET_violations (query : object)
| GET_violation (id : string)
| DELETE_violations (query : object).

Definition handle (e : env) (now : string) (d : db) (r : request) : outcome :=
  match r with
  | POST_violation body => post_violation now d body
  | GET_violations query => get_violations d query
  | GET_violation id => get_violation d id
  | DELETE_violations query => delete_violations e d query
  end.

(** The store after a sequence of timed requests. *)
Fixpoint run (e : env) (d : db) (rs : list (string * request)) : db :=
  match rs with
  | [] => d
  | (now, r) :: rs' => run e (store (handle e now d r)) rs'
  end.

(** ** Sample requests *)

Module Sample.

Definition n80 : value := Num (Finite 80 0).
Definition n50 : value := Num (Finite 50 0).
Definition noon : string := "2024-05-01 12:00:00".

(** [{device:"D1", speed:80, limit:50, tier:"SEVERE"}] *)
Definition severe : object :=
  [("device", Str "D1"); ("speed", n80); ("limit", n50); ("tier", Str "SEVERE")].

(** [{device:"D1", speed:80, limit:50, tier:"severe"}] *)
Definition severe_lowercase : object :=
  [("device", Str "D1"); ("speed", n80); ("limit", n50); ("tier", Str "severe")].

(** [{speed:80, limit:50, tier:""}] *)
Definition empty_tier : object :=
  [("speed", n80); ("limit", n50); ("tier", Str "")].

(** [{speed:80, limit:50}] *)
Definition no_tier : object := [("speed", n80); ("limit", n50)].

(** [{speed:80, limit:50, tier:"EXTREME"}] *)
Definition unknown_tier : object :=
  [("speed", n80); ("limit", n50); ("tier", Str "EXTREME")].

(** [{speed:"80", limit:50, tier:"SEVERE"}] *)
Definition speed_as_string : object :=
  [("speed", Str "80"); ("limit", n50); ("tier", Str "SEVERE")].

(** [{speed:"x", limit:50, tier:"SEVERE"}] *)
Definition speed_x : object :=
  [("speed", Str "x"); ("limit", n50); ("tier", Str "SEVERE")].

(** [{speed:80, limit:50, tier:"SEVERE", excess:"abc"}] *)
Definition excess_abc : object :=
  [("speed", n80); ("limit", n50); ("tier", Str "SEVERE"); ("excess", Str "abc")].

(** [{device:"", speed:80, limit:50, tier:"SEVERE"}] *)
Definition empty_device : object :=
  [("device", Str ""); ("speed", n80); ("limit", n50); ("tier", Str "SEVERE")].

(** [{speed:80, limit:50, tier:"SEVERE"}] *)
Definition no_device : object :=
  [("speed", n80); ("limit", n50); ("tier", Str "SEVERE")].

(** [?limit=abc] and [?limit=5000] *)
Definition limit_abc : object := [("limit", Str "abc")].
Definition limit_5000 : object := [("limit", Str "5000")].

End Sample.

(** ** Properties of the store *)

(** Every stored tier is one of the three. *)
Definition tiers_valid (d : db) : Prop :=
  Forall (fun v => In (Violation.tier v) tiers) (violations d).

(** A count of [stmtStats] as an addend: NULL reaches the caller as
    [null], which adds as 0. *)
Definition addend (c : option Z) : Z :=
  match c with
  | Some z => z
  | None => 0
  end.

(** ** More sample stores and requests *)

Module Example.

(** The store after one accepted POST of [Sample.severe]. *)
Definition one_severe : db :=
  store (post_violation Sample.noon empty Sample.severe).

(** [?tier=severe] *)
Definition tier_severe : object := [("tier", Str "severe")].

(** Two accepted POSTs, a minute apart. *)
Definition two_posts : list (string * request) :=
  [("2024-05-01 12:00:00", POST_violation Sample.severe);
   ("2024-05-01 12:01:00", POST_violation Sample.no_device)].

(** A delete-all with the default key. *)
Definition delete_all_request : list (string * request) :=
  [("2024-05-01 12:02:00", DELETE_violations [("key", Str "changeme")])].

(** [{speed:80, limit:50, tier:"SEVERE", excess:{toString:null}}] *)
Definition excess_object : object :=
  [("speed", Sample.n80); ("limit", Sample.n50); ("tier", Str "SEVERE");
   ("excess", Obj [("toString", Null)])].

(** [?tier=extreme] *)
Definition tier_extreme : object := [("tier", Str "extreme")].

(** [?limit=0] and [?limit=-1] *)
Definition limit_0 : object := [("limit", Str "0")].
Definition limit_minus_1 : object := [("limit", Str "-1")].

End Example.

(** ** Device summaries: [stmtDevices] and the device count of [stmtStats] *)

(** A row of [stmtDevices]. *)
Module Summary.
Record t := make {
  device : string;
  total_violations : Z;       (* COUNT of the group *)
  max_speed : number;         (* MAX(speed) *)
  last_seen : string          (* MAX(received_at) *)
}.
End Summary.

(** MAX over a group whose first member is [x]. *)
Fixpoint maximum {A : Type} (lt : A -> A -> bool) (x : A) (l : list A) : A :=
  match l with
  | [] => x
  | y :: l' => maximum lt (if lt x y then y else x) l'
  end.

(** The rows of one device. *)
Definition group (d : db) (device : string) : list Violation.t :=
  filter (fun v => String.eqb (Violation.device v) device) (violations d).

(** The devices that have a row, each once. *)
Definition distinct_devices (d : db) : list string :=
  nodup string_dec (map Violation.device (violations d)).

(** The row of GROUP BY device for one device.  A group is never empty;
    the aggregates of an empty one would be NULL. *)
Definition summarize (d : db) (device : string) : Summary.t :=
  let g := group d device in
  Summary.make device (Z.of_nat (List.length g))
    (match map Violation.speed g with
     | s :: l => maximum Number.ltb s l
     | [] => NaN
     end)
    (match map Violation.received_at g with
     | t :: l => maximum String.ltb t l
     | [] => ""
     end).

(** ORDER BY last_seen DESC, by insertion into a descending list. *)
Fixpoint insert_last_seen_desc (s : Summary.t) (l : list Summary.t)
  : list Summary.t :=
  match l with
  | [] => [s]
  | w :: l' =>
      if String.ltb (Summary.last_seen w) (Summary.last_seen s)
      then s :: l
      else w :: insert_last_seen_desc s l'
  end.

(** [stmtDevices.all()]. *)
Definition stmtDevices_all (d : db) : list Summary.t :=
  fold_right insert_last_seen_desc [] (map (summarize d) (distinct_devices d)).

(** COUNT(DISTINCT device), the column [devices] of [stmtStats]. *)
Definition count_distinct_device (d : db) : Z :=
  Z.of_nat (List.length (distinct_devices d)).

(** ** Orders and well-formed stores *)

(** Insertion into a list that is descending by a text key: the shape
    shared by the two ORDER BY ... DESC above. *)
Fixpoint insert_desc_by {A : Type} (key : A -> string) (x : A) (l : list A)
  : list A :=
  match l with
  | [] => [x]
  | w :: l' =>
      if String.ltb (key w) (key x) then x :: l
      else w :: insert_desc_by key x l'
  end.

(** [a] was not received before [b]. *)
Definition not_older (a b : Violation.t) : Prop :=
  String.ltb (Violation.received_at a) (Violation.received_at b) = false.

(** [a] was not last seen before [b]. *)
Definition not_seen_before (a b : Summary.t) : Prop :=
  String.ltb (Summary.last_seen a) (Summary.last_seen b) = false.

(** The REAL columns hold numbers, never NaN. *)
Definition reals_valid (v : Violation.t) : Prop :=
  Number.is_nan (Violation.speed v) = false /\
  Number.is_nan (Violation.speed_limit v) = false /\
  Number.is_nan (Violation.excess v) = false /\
  Violation.lat v <> Some NaN /\ Violation.lon v <> Some NaN.

(** Row ids grow along the table, start at 1 and stay below the
    AUTOINCREMENT counter. *)
Definition well_formed (d : db) : Prop :=
  StronglySorted Z.lt (map Violation.id (violations d)) /\
  Forall (fun v => 1 <= Violation.id v <= sqlite_sequence d) (violations d) /\
  Forall reals_valid (violations d).

(** What a query parameter asks for: the non-empty string [s], or nothing
    when the parameter is absent or falsy. *)
Definition asks (q : value) (o : option string) : Prop :=
  match o with
  | Some s => q = Str s /\ s <> ""
  | None => truthy q = false
  end.

(** The rows a tier filter and a device filter select. *)
Definition wanted (tier device : option string) (v : Violation.t) : bool :=
  match tier with
  | Some t => String.eqb (Violation.tier v) (toUpperCase t)
  | None => true
  end
  &&
  match device with
  | Some s => String.eqb (Violation.device v) s
  | None => true
  end.

(** The parameter a filter turns into. *)
Definition filter_value (upper : bool) (o : option string) : value :=
  match o with
  | Some s => Str (if upper then toUpperCase s else s)
  | None => Null
  end.

(** A value that is not an array or an object. *)
Definition primitive (v : value) : Prop :=
  match v with
  | Arr _ | Obj _ => False
  | _ => True
  end.

(** ** Inputs on which strings and numbers are exact *)

(** Every character of [s] is ASCII.  On such a text the white space that
    [parseInt] and [parseFloat] skip and the letters that [toUpperCase]
    maps are those of the model. *)
Definition ascii_only (s : string) : Prop :=
  Forall (fun c => Chars.code c < 128) (list_ascii_of_string s).



(** An integer that a double holds exactly. *)
Definition safe_integer (z : Z) : Prop := - 2 ^ 53 <= z <= 2 ^ 53.

(** A submitted value whose text, when [parseFloat] has to read one, is
    ASCII: absent, null, a boolean, a number or an ASCII string. *)
Definition ascii_input (q : value) : Prop :=
  match q with
  | Str s => ascii_only s
  | Arr _ | Obj _ => False
  | _ => True
  end.

(** A limit parameter whose effective limit, when it is an integer, is at
    least -2^53, so that the double bound to LIMIT is that integer. *)
Definition limit_in_range (q : value) : Prop :=
  forall z, effective_limit q = Some (Finite z 0) -> - 2 ^ 53 <= z.

(** Proves [ascii_only] of a literal text. *)
Ltac ascii_text :=
  unfold ascii_only; simpl;
  repeat (apply Forall_cons; [reflexivity |]); apply Forall_nil.

(** ** Validation *)

Lemma typeof_number (v : value) :
  String.eqb (typeof v) "number" = true <-> exists n, v = Num n.
Proof.
  destruct v; simpl; split; intros H; try discriminate;
    try (destruct H as [n H]; discriminate); eauto.
Qed.

Lemma includes_tiers (v : value) :
  includes tiers v = true <-> exists t, v = Str t /\ In t tiers.
Proof.
  split.
  - destruct v; try discriminate. unfold includes. intros H.
    apply existsb_exists in H. destruct H as [x [Hin Heq]].
    apply String.eqb_eq in Heq. subst x. eauto.
  - intros [t [-> Hin]]. unfold includes. apply existsb_exists.
    exists t. split; [assumption | apply String.eqb_refl].
Qed.

Lemma tier_truthy (t : string) : In t tiers -> truthy (Str t) = true.
Proof.
  unfold tiers. simpl. intros [<- | [<- | [<- | []]]]; reflexivity.
Qed.

(** A falsy value is never a member of the enumeration. *)
Lemma falsy_not_included (v : value) :
  truthy v = false -> includes tiers v = false.
Proof.
  intros H. destruct (includes tiers v) eqn:E; [| reflexivity].
  apply includes_tiers in E. destruct E as [t [-> Hin]].
  rewrite (tier_truthy t Hin) in H. discriminate.
Qed.

(** The four checks of [validateViolation], one by one. *)
Lemma validate_checks (body : object) :
  let errors := validateViolation body in
  (In speed_error errors <->
     String.eqb (typeof (get body "speed")) "number" = false) /\
  (In limit_error errors <->
     String.eqb (typeof (get body "limit")) "number" = false) /\
  (In tier_required errors <-> truthy (get body "tier") = false) /\
  (In tier_enum_error errors <-> includes tiers (get body "tier") = false).
Proof.
  unfold validateViolation, push_if.
  destruct (String.eqb (typeof (get body "speed")) "number");
    destruct (String.eqb (typeof (get body "limit")) "number");
    destruct (truthy (get body "tier"));
    destruct (includes tiers (get body "tier")); simpl;
    unfold speed_error, limit_error, tier_required, tier_enum_error;
    repeat split; intros H; try discriminate; try tauto;
    repeat (destruct H as [H | H]; try discriminate); try contradiction.
Qed.

Lemma validate_nil (body : object) :
  validateViolation body = [] <->
  String.eqb (typeof (get body "speed")) "number" = true /\
  String.eqb (typeof (get body "limit")) "number" = true /\
  truthy (get body "tier") = true /\
  includes tiers (get body "tier") = true.
Proof.
  unfold validateViolation, push_if.
  destruct (String.eqb (typeof (get body "speed")) "number");
    destruct (String.eqb (typeof (get body "limit")) "number");
    destruct (truthy (get body "tier"));
    destruct (includes tiers (get body "tier")); simpl;
    split; intros H; try discriminate; try tauto;
    destruct H as [? [? [? ?]]]; discriminate.
Qed.

(** What a payload that passes validation looks like. *)
Lemma validate_passes (body : object) :
  validateViolation body = [] <->
  exists s l t, get body "speed" = Num s /\ get body "limit" = Num l /\
                get body "tier" = Str t /\ In t tiers.
Proof.
  rewrite validate_nil. split.
  - intros [Hs [Hl [_ Ht]]].
    apply typeof_number in Hs. apply typeof_number in Hl.
    apply includes_tiers in Ht.
    destruct Hs as [s Hs], Hl as [l Hl], Ht as [t [Ht Hin]].
    exists s, l, t. auto.
  - intros [s [l [t [Hs [Hl [Ht Hin]]]]]].
    rewrite Hs, Hl, Ht. repeat split; try reflexivity.
    + apply tier_truthy; assumption.
    + apply includes_tiers. eauto.
Qed.

(** A non-empty error list is answered 400 and the store is not touched. *)
Lemma post_rejected (now : string) (d : db) (body : object) :
  validateViolation body <> [] ->
  post_violation now d body =
    mkoutcome (Json 400 (Errors (validateViolation body))) [] d.
Proof.
  intros H. unfold post_violation.
  destruct (validateViolation body); [contradiction | reflexivity].
Qed.

(** ** The store *)

Lemma max_rowid_ge (l : list Violation.t) (v : Violation.t) :
  In v l -> Violation.id v <= max_rowid l.
Proof.
  induction l as [| w l IH]; simpl; intros H; [contradiction |].
  destruct H as [-> | H]; [lia |]. specialize (IH H). lia.
Qed.

Lemma max_rowid_nonneg (l : list Violation.t) : 0 <= max_rowid l.
Proof.
  induction l as [| w l IH]; simpl; lia.
Qed.

Lemma find_last {A : Type} (f : A -> bool) (l : list A) (a : A) :
  (forall x, In x l -> f x = false) -> f a = true ->
  find f (l ++ [a]) = Some a.
Proof.
  intros Hl Ha. induction l as [| x l IH]; simpl.
  - rewrite Ha. reflexivity.
  - rewrite (Hl x (or_introl eq_refl)). apply IH.
    intros y Hy. apply Hl. right. assumption.
Qed.

(** What a successful [stmtInsert.run] has done. *)
Lemma stmtInsert_run_inr (now : string) (d d' : db) (r : Row.t) (id : Z) :
  stmtInsert_run now d r = inr (d', id) ->
  exists device,
    text_not_null "device" (Row.device r) = inr device /\
    Number.is_nan (Row.speed r) = false /\
    Number.is_nan (Row.speed_limit r) = false /\
    Number.is_nan (Row.excess r) = false /\
    id = next_rowid d /\
    d' = mkdb (violations d ++
                 [Violation.make id device (Row.speed r) (Row.speed_limit r)
                    (Row.excess r) (Row.tier r) (real_or_null (Row.lat r))
                    (real_or_null (Row.lon r)) now]) id.
Proof.
  unfold stmtInsert_run, bind_result, real_not_null, ret, fail.
  destruct (text_not_null "device" (Row.device r)) as [e | device];
    [discriminate |].
  destruct (Number.is_nan (Row.speed r)); [discriminate |].
  destruct (Number.is_nan (Row.speed_limit r)); [discriminate |].
  destruct (Number.is_nan (Row.excess r)); [discriminate |].
  intros H. inversion H; subst. exists device. repeat split; reflexivity.
Qed.

(** The row just appended is the one its id finds. *)
Lemma stmtById_get_last (d : db) (v : Violation.t) (seq : Z) :
  Violation.id v = next_rowid d ->
  stmtById_get (mkdb (violations d ++ [v]) seq) (Finite (Violation.id v) 0)
  = Some v.
Proof.
  intros Hid. unfold stmtById_get. simpl. apply find_last.
  - intros x Hx. apply max_rowid_ge in Hx. unfold next_rowid in Hid.
    apply Z.eqb_neq. lia.
  - apply Z.eqb_refl.
Qed.

Lemma insert_desc_length (v : Violation.t) (l : list Violation.t) :
  List.length (insert_desc v l) = S (List.length l).
Proof.
  induction l as [| w l IH]; simpl; [reflexivity |].
  destruct (String.ltb _ _); simpl; [reflexivity | rewrite IH; reflexivity].
Qed.

Lemma order_length (l : list Violation.t) :
  List.length (order_by_received_at_desc l) = List.length l.
Proof.
  induction l as [| v l IH]; simpl; [reflexivity |].
  unfold order_by_received_at_desc in *. simpl.
  rewrite insert_desc_length, IH. reflexivity.
Qed.

Lemma insert_desc_perm (v : Violation.t) (l : list Violation.t) :
  Permutation (v :: l) (insert_desc v l).
Proof.
  induction l as [| w l IH]; simpl; [apply Permutation_refl |].
  destruct (String.ltb _ _); [apply Permutation_refl |].
  eapply Permutation_trans; [apply perm_swap |].
  apply perm_skip. exact IH.
Qed.

(** Ordering returns the same rows. *)
Lemma order_perm (l : list Violation.t) :
  Permutation l (order_by_received_at_desc l).
Proof.
  induction l as [| v l IH]; simpl; [apply Permutation_refl |].
  unfold order_by_received_at_desc in *. simpl.
  eapply Permutation_trans; [| apply insert_desc_perm].
  apply perm_skip. exact IH.
Qed.

(** ** Decimal numerals *)

Lemma of_uint_acc_horner (u : Decimal.uint) (acc : positive) :
  Z.pos (Pos.of_uint_acc u acc) = horner (Z.pos acc) u.
Proof.
  revert acc. induction u; intros acc; cbn [Pos.of_uint_acc horner];
    try reflexivity; rewrite IHu; f_equal; lia.
Qed.

Lemma of_uint_horner (u : Decimal.uint) :
  Z.of_N (N.of_uint u) = horner 0 u.
Proof.
  unfold N.of_uint. induction u; cbn [Pos.of_uint horner Z.of_N];
    try reflexivity; try exact IHu; apply of_uint_acc_horner.
Qed.

Lemma read_digits_numeral (u : Decimal.uint) (acc : Z) (n : nat) :
  Chars.read_digits 10 acc n
    (list_ascii_of_string (NilEmpty.string_of_uint u))
  = (horner acc u, (n + Decimal.nb_digits u)%nat, []).
Proof.
  revert acc n. induction u; intros acc n; simpl;
    [rewrite Nat.add_0_r; reflexivity | ..];
    rewrite IHu, Nat.add_succ_r; reflexivity.
Qed.

(** A numeral starts with a digit: there is no space to skip, no sign,
    and no hexadecimal prefix. *)
Lemma numeral_head (u : Decimal.uint) :
  u <> Decimal.Nil ->
  let l := list_ascii_of_string (NilEmpty.string_of_uint u) in
  Chars.drop_spaces l = l /\ Literal.sign l = (false, l) /\
  match l with
  | "0"%char :: x :: r =>
      if Ascii.eqb x "x" || Ascii.eqb x "X" then (16, r) else (10, l)
  | _ => (10, l)
  end = (10, l) /\
  exists n, Decimal.nb_digits u = S n.
Proof.
  intros Hnil l.
  assert (Hn : exists n, Decimal.nb_digits u = S n)
    by (destruct u; [contradiction | simpl; eauto ..]).
  subst l. repeat split; try exact Hn;
    destruct u; try contradiction; try reflexivity.
  destruct u; reflexivity.
Qed.

(** [parseInt] reads the decimal numeral of a natural number back. *)
Lemma parseInt_digits (z : Z) :
  0 <= z -> Literal.parseInt (digits z) = Finite z 0.
Proof.
  intros Hz. unfold digits.
  assert (Hv : horner 0 (N.to_uint (Z.to_N z)) = z).
  { rewrite <- of_uint_horner, DecimalN.Unsigned.of_to. lia. }
  assert (Hnil : N.to_uint (Z.to_N z) <> Decimal.Nil).
  { destruct (Z.to_N z); simpl;
      [discriminate | apply DecimalPos.Unsigned.to_uint_nonnil]. }
  destruct (numeral_head _ Hnil) as [Hdrop [Hsign [Hradix [n Hn]]]].
  unfold Literal.parseInt. rewrite Hdrop, Hsign, Hradix.
  rewrite read_digits_numeral, Hv, Hn. reflexivity.
Qed.

(** ** POST /api/violation *)

(** A 201 means: validation passed, the row was built and inserted. *)
Lemma post_created (now : string) (d : db) (body : object) (id : Z) :
  sent (post_violation now d body) = Json 201 (Created id) ->
  validateViolation body = [] /\
  exists r d', make_row body = Some r /\
               stmtInsert_run now d r = inr (d', id) /\
               store (post_violation now d body) = d'.
Proof.
  unfold post_violation.
  destruct (validateViolation body); [| discriminate].
  destruct (make_row body) as [r |]; [| discriminate].
  destruct (stmtInsert_run now d r) as [e | [d' id']] eqn:Hrun;
    [discriminate |].
  destruct (post_log id' body); simpl; intros H; inversion H; subst.
  split; [reflexivity |]. exists r, d'. repeat split; assumption.
Qed.

(** The row built from a payload that passes validation. *)
Lemma make_row_valid (body : object) (s l : number) (t : string) (r : Row.t) :
  get body "speed" = Num s -> get body "limit" = Num l ->
  get body "tier" = Str t -> In t tiers ->
  make_row body = Some r ->
  Row.device r = default (get body "device") (Str "UNKNOWN") /\
  Row.speed r = s /\ Row.speed_limit r = l /\ Row.tier r = t /\
  (if nullish (get body "excess") then Row.excess r = Number.sub s l
   else parseFloat (get body "excess") = Some (Row.excess r)) /\
  (if nullish (get body "lat") then Row.lat r = None
   else exists n, parseFloat (get body "lat") = Some n /\ Row.lat r = Some n) /\
  (if nullish (get body "lon") then Row.lon r = None
   else exists n, parseFloat (get body "lon") = Some n /\ Row.lon r = Some n).
Proof.
  intros Hs Hl Ht Hin. unfold make_row. rewrite Hs, Hl, Ht.
  assert (Hup : toUpperCase t = t).
  { unfold tiers in Hin. simpl in Hin.
    destruct Hin as [<- | [<- | [<- | []]]]; reflexivity. }
  cbn [parseFloat and_then ToString option_map minus ToNumber].
  rewrite Hup.
  assert (Hex : exists x,
             (if nullish (get body "excess")
              then option_map Num (Some (Number.sub s l))
              else Some (get body "excess")) = Some x /\
             (if nullish (get body "excess")
              then parseFloat x = Some (Number.sub s l)
              else x = get body "excess")).
  { destruct (nullish (get body "excess")); eexists; split; reflexivity. }
  destruct Hex as [x [Hx Hx']]. 
  change (option_map Num (Some (Number.sub s l)))
    with (Some (Num (Number.sub s l))) in *.
  rewrite Hx. cbn [and_then].
  destruct (parseFloat x) as [ex |] eqn:Hpx; cbn [and_then]; [| discriminate].
  assert (Hnull : forall v, nullish (default v Null) = nullish v).
  { intros v; destruct v; reflexivity. }
  assert (Hdef : forall v, nullish v = false -> default v Null = v).
  { intros v; destruct v; simpl; intros; try discriminate; reflexivity. }
  rewrite !Hnull.
  destruct (nullish (get body "lat")) eqn:Hlat;
    destruct (nullish (get body "lon")) eqn:Hlon; cbn [negb and_then];
    rewrite ?(Hdef _ Hlat), ?(Hdef _ Hlon);
    try (destruct (parseFloat (get body "lat")) as [la |];
         cbn [option_map and_then]; [| discriminate]);
    try (destruct (parseFloat (get body "lon")) as [lo |];
         cbn [option_map and_then]; [| discriminate]);
    intros H; inversion H; subst; cbn;
    (repeat split; try reflexivity; eauto);
    destruct (nullish (get body "excess")); subst; congruence.
Qed.

(** After a successful insert the log line can always be written: the
    device that was bound is a number or a string. *)
Lemma post_log_some (body : object) (s l : number) (t dev : string) (id : Z) :
  get body "speed" = Num s -> get body "limit" = Num l ->
  get body "tier" = Str t ->
  text_not_null "device" (default (get body "device") (Str "UNKNOWN"))
  = inr dev ->
  exists line, post_log id body = Some line.
Proof.
  intros Hs Hl Ht Hdev. unfold post_log. rewrite Hs, Hl, Ht.
  destruct (default (get body "device") (Str "UNKNOWN")) as [| | b | n | x | a | o];
    try discriminate; cbn [ToString and_then]; eauto.
Qed.

(** What becomes of a payload that passes validation: a conversion
    throws, or the insert fails and the answer is 500, or the insert
    succeeds and the answer is 201 with the new id. *)
Lemma post_valid_cases (now : string) (d : db) (body : object) :
  validateViolation body = [] ->
  (make_row body = None /\
   post_violation now d body = mkoutcome Throws [] d) \/
  (exists r err,
     make_row body = Some r /\ stmtInsert_run now d r = inl err /\
     post_violation now d body
     = mkoutcome (Json 500 (Error "Database error"))
         ["[POST] DB error: " ++ message err] d) \/
  (exists r d' id line,
     make_row body = Some r /\ stmtInsert_run now d r = inr (d', id) /\
     post_violation now d body = mkoutcome (Json 201 (Created id)) [line] d').
Proof.
  intros Hval. unfold post_violation. rewrite Hval.
  destruct (make_row body) as [r |] eqn:Hrow; [| left; split; reflexivity].
  right.
  destruct (stmtInsert_run now d r) as [err | [d' id]] eqn:Hrun.
  - left. exists r, err. repeat split; first [reflexivity | assumption].
  - right.
    apply validate_passes in Hval.
    destruct Hval as [s [l [t [Hs [Hl [Ht Hin]]]]]].
    destruct (make_row_valid body s l t r Hs Hl Ht Hin Hrow) as [Hdev _].
    pose proof (stmtInsert_run_inr _ _ _ _ _ Hrun) as [dev [Htext _]].
    rewrite Hdev in Htext.
    destruct (post_log_some body s l t dev id Hs Hl Ht Htext) as [line Hline].
    rewrite Hline. exists r, d', id, line.
    repeat split; first [reflexivity | assumption].
Qed.

(** GET by a path text that reads as the id of a stored row. *)
Lemma get_violation_found (d : db) (p : string) (id : Z) (v : Violation.t) :
  stmtById_get d (Finite id 0) = Some v ->
  Literal.parseInt p = Finite id 0 ->
  get_violation d p = mkoutcome (Json 200 (Found v)) [] d.
Proof.
  intros Hget Hp. unfold get_violation. rewrite Hp, Hget. reflexivity.
Qed.

(** The record behind a 201: where it is and what it holds. *)
Lemma post_created_record (now : string) (d : db) (body : object) (id : Z) :
  sent (post_violation now d body) = Json 201 (Created id) ->
  exists (v : Violation.t) (r : Row.t),
    make_row body = Some r /\
    get body "speed" = Num (Violation.speed v) /\
    get body "limit" = Num (Violation.speed_limit v) /\
    get body "tier" = Str (Violation.tier v) /\
    In (Violation.tier v) tiers /\
    text_not_null "device" (default (get body "device") (Str "UNKNOWN"))
      = inr (Violation.device v) /\
    Violation.excess v = Row.excess r /\
    Number.is_nan (Violation.excess v) = false /\
    Violation.lat v = real_or_null (Row.lat r) /\
    Violation.lon v = real_or_null (Row.lon r) /\
    Violation.id v = id /\ id = next_rowid d /\
    Violation.received_at v = now /\
    store (post_violation now d body) = mkdb (violations d ++ [v]) id /\
    stmtById_get (store (post_violation now d body)) (Finite id 0) = Some v /\
    get_violation (store (post_violation now d body)) (digits id)
    = mkoutcome (Json 200 (Found v)) [] (store (post_violation now d body)).
Proof.
  intros H. apply post_created in H.
  destruct H as [Hval [r [d' [Hrow [Hrun Hstore]]]]].
  apply validate_passes in Hval.
  destruct Hval as [s [l [t [Hs [Hl [Ht Hin]]]]]].
  destruct (make_row_valid body s l t r Hs Hl Ht Hin Hrow)
    as [Hdev [Hrs [Hrl [Hrt _]]]].
  apply stmtInsert_run_inr in Hrun.
  destruct Hrun as [device [Htext [_ [_ [Hnan [Hid Hd']]]]]].
  set (v := Violation.make id device (Row.speed r) (Row.speed_limit r)
              (Row.excess r) (Row.tier r) (real_or_null (Row.lat r))
              (real_or_null (Row.lon r)) now) in *.
  assert (Hget : stmtById_get d' (Finite id 0) = Some v).
  { rewrite Hd'. apply (stmtById_get_last d v id). exact Hid. }
  assert (Hpos : 0 <= id).
  { rewrite Hid. unfold next_rowid.
    pose proof (max_rowid_nonneg (violations d)). lia. }
  exists v, r. rewrite Hstore. subst v.
  cbn [Violation.id Violation.device Violation.speed Violation.speed_limit
       Violation.excess Violation.tier Violation.lat Violation.lon
       Violation.received_at].
  repeat (split; [first [assumption | reflexivity | congruence] |]).
  apply (get_violation_found d' (digits id) id _ Hget).
  apply parseInt_digits. exact Hpos.
Qed.


(** ** Tier, speed and limit checks *)

(** C1, as stated, fails: the tier "severe" differs from the member
    "SEVERE" only in letter case, speed and limit are numbers, and the
    payload [{device:"D1", speed:80, limit:50, tier:"severe"}] is answered
    400 with the enumeration error; nothing is stored. *)
Lemma C1_lowercase_tier_is_rejected :
  toUpperCase "severe" = "SEVERE" /\ In "SEVERE" tiers /\
  validateViolation Sample.severe_lowercase = [tier_enum_error] /\
  post_violation Sample.noon empty Sample.severe_lowercase
  = mkoutcome (Json 400 (Errors [tier_enum_error])) [] empty.
Proof.
  repeat split; try reflexivity. simpl. tauto.
Qed.

(** C1, amended: for every payload whose speed and limit are numbers,
    validation succeeds exactly when the tier is one of the strings MINOR,
    MODERATE, SEVERE as written; any other tier, also one that differs
    only in letter case, is answered 400 with the enumeration error and
    nothing is stored; the record of a 201 carries the submitted tier,
    which is its own upper-cased form.  On an empty store the payload
    [{device:"D1", speed:80, limit:50, tier:"SEVERE"}] is answered 201 with
    id 1, and GET /api/violations/1 returns the record with tier SEVERE and
    excess 30. *)
Theorem C1_tier_is_matched_as_written
  (now : string) (d : db) (body : object) (s l : number) :
  get body "speed" = Num s -> get body "limit" = Num l ->
  (validateViolation body = [] <->
     exists t, get body "tier" = Str t /\ In t tiers) /\
  (forall t, get body "tier" = Str t -> ~ In t tiers ->
     exists errors,
       post_violation now d body = mkoutcome (Json 400 (Errors errors)) [] d /\
       In tier_enum_error errors) /\
  (forall id, sent (post_violation now d body) = Json 201 (Created id) ->
     exists v,
       sent (get_violation (store (post_violation now d body)) (digits id))
       = Json 200 (Found v) /\
       get body "tier" = Str (Violation.tier v) /\
       toUpperCase (Violation.tier v) = Violation.tier v /\
       In (Violation.tier v) tiers) /\
  (sent (post_violation now empty Sample.severe) = Json 201 (Created 1) /\
   exists v,
     sent (get_violation (store (post_violation now empty Sample.severe)) "1")
     = Json 200 (Found v) /\
     Violation.tier v = "SEVERE" /\ Violation.excess v = Finite 30 0).
Proof.
  intros Hs Hl. split; [| split; [| split]].
  - rewrite validate_passes. split.
    + intros [s' [l' [t [_ [_ [Ht Hin]]]]]]. eauto.
    + intros [t [Ht Hin]]. exists s, l, t. auto.
  - intros t Ht Hnot. exists (validateViolation body).
    assert (Hinc : includes tiers (get body "tier") = false).
    { destruct (includes tiers (get body "tier")) eqn:E; [| reflexivity].
      apply includes_tiers in E. destruct E as [t' [Ht' Hin]].
      rewrite Ht in Ht'. inversion Ht'; subst. contradiction. }
    assert (Herr : In tier_enum_error (validateViolation body)).
    { apply (validate_checks body). assumption. }
    split; [| assumption].
    apply post_rejected. intros Hnil. rewrite Hnil in Herr. contradiction.
  - intros id Hcreated.
    destruct (post_created_record now d body id Hcreated)
      as [v [r [_ [_ [_ [Ht [Hin [_ [_ [_ [_ [_ [_ [_ [_ [_ [_ Hget]]]]]]]]]]]]]]]]].
    exists v. rewrite Hget. repeat split; try assumption.
    unfold tiers in Hin. simpl in Hin.
    destruct Hin as [<- | [<- | [<- | []]]]; reflexivity.
  - split; [reflexivity |]. eexists. repeat split.
Qed.

(** C1, amended, at [{device:"D1", speed:80, limit:50, tier:"SEVERE"}]. *)
Lemma C1_tier_is_matched_as_written_witness :
  get Sample.severe "speed" = Num (Finite 80 0) /\
  get Sample.severe "limit" = Num (Finite 50 0) /\
  validateViolation Sample.severe = [].
Proof.
  split; [reflexivity | split; [reflexivity |]].
  apply (proj1 (C1_tier_is_matched_as_written Sample.noon empty Sample.severe
                  (Finite 80 0) (Finite 50 0) eq_refl eq_refl)).
  exists "SEVERE". split; [reflexivity | simpl; tauto].
Defined.

(** C2, as stated, fails: with an empty-string tier both the presence
    error and the enumeration error are returned, and so they are when the
    tier is absent. *)
Lemma C2_falsy_tier_gives_both_errors :
  validateViolation Sample.empty_tier = [tier_required; tier_enum_error] /\
  validateViolation Sample.no_tier = [tier_required; tier_enum_error].
Proof.
  split; reflexivity.
Qed.

(** C2, amended: the presence error is returned exactly when the tier is
    falsy (absent, null, false, 0, NaN or the empty string), the
    enumeration error exactly when the tier is not one of the three
    strings; every payload that gets the presence error gets the
    enumeration error as well, and a truthy tier outside the enumeration
    gets the enumeration error alone. *)
Theorem C2_presence_error_comes_with_enum_error (body : object) :
  (In tier_required (validateViolation body) <->
     truthy (get body "tier") = false) /\
  (In tier_enum_error (validateViolation body) <->
     includes tiers (get body "tier") = false) /\
  (In tier_required (validateViolation body) ->
     In tier_enum_error (validateViolation body)) /\
  (truthy (get body "tier") = true ->
     includes tiers (get body "tier") = false ->
     In tier_enum_error (validateViolation body) /\
     ~ In tier_required (validateViolation body)).
Proof.
  destruct (validate_checks body) as [_ [_ [Hreq Henum]]].
  split; [exact Hreq | split; [exact Henum | split]].
  - intros H. apply Henum. apply falsy_not_included. apply Hreq. exact H.
  - intros Ht Hi. split; [apply Henum; exact Hi |].
    intros H. apply Hreq in H. rewrite Ht in H. discriminate.
Qed.

(** C2, amended, on an empty-string tier and on the tier "EXTREME". *)
Lemma C2_presence_error_comes_with_enum_error_witness :
  In tier_enum_error (validateViolation Sample.empty_tier) /\
  ~ In tier_required (validateViolation Sample.unknown_tier).
Proof.
  split.
  - apply (proj1 (proj2 (proj2
             (C2_presence_error_comes_with_enum_error Sample.empty_tier)))).
    simpl. tauto.
  - apply (proj2 (proj2 (proj2
             (C2_presence_error_comes_with_enum_error Sample.unknown_tier)))
             eq_refl eq_refl).
Defined.

(** C3, as stated, fails: a speed given as the numeric string "80" is not
    coerced and accepted; the payload [{speed:"80", limit:50,
    tier:"SEVERE"}] is answered 400 with the speed error. *)
Lemma C3_numeric_string_speed_is_rejected :
  Literal.toNumber "80" = Finite 80 0 /\
  post_violation Sample.noon empty Sample.speed_as_string
  = mkoutcome (Json 400 (Errors [speed_error])) [] empty.
Proof.
  split; reflexivity.
Qed.

(** C3, amended: speed and limit are each accepted exactly when the
    submitted value is of type number; a string is never coerced.  A
    payload whose speed is not a number, such as speed:"x", is answered 400
    with an error list that contains "speed must be a number", and nothing
    is stored. *)
Theorem C3_speed_and_limit_must_be_numbers
  (now : string) (d : db) (body : object) :
  (In speed_error (validateViolation body) <->
     ~ exists n, get body "speed" = Num n) /\
  (In limit_error (validateViolation body) <->
     ~ exists n, get body "limit" = Num n) /\
  ((~ exists n, get body "speed" = Num n) ->
     exists errors,
       post_violation now d body = mkoutcome (Json 400 (Errors errors)) [] d /\
       In speed_error errors) /\
  post_violation now d Sample.speed_x
  = mkoutcome (Json 400 (Errors ["speed must be a number"])) [] d.
Proof.
  destruct (validate_checks body) as [Hs [Hl _]].
  assert (Hnum : forall v,
             String.eqb (typeof v) "number" = false <->
             ~ exists n, v = Num n).
  { intros v. rewrite <- typeof_number.
    destruct (String.eqb (typeof v) "number"); split; intros H;
      try discriminate; try reflexivity; try (intros H'; discriminate).
    exfalso. apply H. reflexivity. }
  split; [| split; [| split]].
  - rewrite <- Hnum. exact Hs.
  - rewrite <- Hnum. exact Hl.
  - intros Hnot. exists (validateViolation body).
    assert (Herr : In speed_error (validateViolation body)).
    { apply Hs. apply Hnum. exact Hnot. }
    split; [| exact Herr].
    apply post_rejected. intros Hnil. rewrite Hnil in Herr. contradiction.
  - reflexivity.
Qed.

(** ** Store failures *)

(** A failed insert is logged with its message and answered with a fixed
    text. *)
Lemma post_insert_fails
  (now : string) (d : db) (body : object) (r : Row.t) (err : error) :
  validateViolation body = [] -> make_row body = Some r ->
  stmtInsert_run now d r = inl err ->
  post_violation now d body
  = mkoutcome (Json 500 (Error "Database error"))
      ["[POST] DB error: " ++ message err] d.
Proof.
  intros Hval Hrow Hrun. unfold post_violation.
  rewrite Hval, Hrow, Hrun. reflexivity.
Qed.

(** A failed SELECT is answered with the store's own message, and nothing
    is logged. *)
Lemma get_violations_select_fails
  (d : db) (query : object) (n : number) (tier device : value) (err : error) :
  effective_limit (get query "limit") = Some n ->
  filter_param true (get query "tier") = Some tier ->
  filter_param false (get query "device") = Some device ->
  select d (where_terms tier device) n = inl err ->
  get_violations d query = mkoutcome (Json 500 (Error (message err))) [] d.
Proof.
  intros Hn Ht Hd Hsel. unfold get_violations.
  rewrite Hn, Ht, Hd. cbn [and_then]. rewrite Hsel. reflexivity.
Qed.

(** C4: on GET /api/violations?limit=abc the limit is NaN, the SELECT
    fails with SQLITE_MISMATCH, and the 500 body carries the store's
    message "datatype mismatch"; nothing is logged.  So it is for every
    failure of the SELECT: the body is the message of the error.  The POST
    handler answers every failed insert with the fixed text "Database
    error" and logs the message. *)
Theorem C4_get_violations_sends_the_store_message (now : string) (d : db) :
  get_violations d Sample.limit_abc
  = mkoutcome (Json 500 (Error "datatype mismatch")) [] d /\
  (forall query n tier device err,
     effective_limit (get query "limit") = Some n ->
     filter_param true (get query "tier") = Some tier ->
     filter_param false (get query "device") = Some device ->
     select d (where_terms tier device) n = inl err ->
     get_violations d query = mkoutcome (Json 500 (Error (message err))) [] d) /\
  (forall body r err,
     validateViolation body = [] -> make_row body = Some r ->
     stmtInsert_run now d r = inl err ->
     post_violation now d body
     = mkoutcome (Json 500 (Error "Database error"))
         ["[POST] DB error: " ++ message err] d).
Proof.
  split; [reflexivity | split].
  - intros query n tier device err. apply get_violations_select_fails.
  - intros body r err. apply post_insert_fails.
Qed.

(** ** The limit of GET /api/violations *)

Lemma min_1000 (z : Z) :
  Number.min (Finite z 0) (Finite 1000 0) = Finite (Z.min z 1000) 0.
Proof.
  unfold Number.min, Number.ltb, Number.rescale. simpl.
  rewrite Z.mul_1_r.
  destruct (Z.ltb_spec 1000 z); f_equal; lia.
Qed.

Lemma limit_1000 (l : list Violation.t) :
  limit (Finite 1000 0) l = inr (firstn (Z.to_nat 1000) l).
Proof.
  reflexivity.
Qed.

Lemma In_firstn {A : Type} (n : nat) (l : list A) (a : A) :
  In a (firstn n l) -> In a l.
Proof.
  intros H. rewrite <- (firstn_skipn n l). apply in_or_app. left. exact H.
Qed.

Lemma select_1000_count (d : db) (terms : list term) :
  exists rows,
    select d terms (Finite 1000 0) = inr rows /\
    Z.of_nat (List.length rows) <= 1000 /\
    (forall v, In v rows ->
       In v (violations d) /\ forallb (holds v) terms = true) /\
    (terms = [] ->
       Z.of_nat (List.length rows)
       = Z.min 1000 (Z.of_nat (List.length (violations d)))).
Proof.
  unfold select. rewrite limit_1000. eexists. split; [reflexivity |].
  split; [| split].
  - rewrite length_firstn. lia.
  - intros v Hv. apply In_firstn in Hv.
    apply (Permutation_in _ (Permutation_sym (order_perm _))) in Hv.
    apply filter_In in Hv. exact Hv.
  - intros ->. rewrite length_firstn, order_length.
    replace (filter (fun v => forallb (holds v) []) (violations d))
      with (violations d).
    + lia.
    + clear. induction (violations d) as [| v l IH];
        [reflexivity | simpl; f_equal; exact IH].
Qed.

(** C5, as stated, fails: a limit that does not parse as an integer does
    not give 200; the limit is NaN and the request is answered 500. *)
Lemma C5_unparsable_limit_is_not_defaulted :
  effective_limit (get Sample.limit_abc "limit") = Some NaN /\
  sent (get_violations empty Sample.limit_abc)
  = Json 500 (Error "datatype mismatch").
Proof.
  split; reflexivity.
Qed.

(** C5, amended: the effective limit is 200 when the limit parameter is
    absent or the empty string; when it is a string that parses to an
    integer z of at least -2^53 it is z when z is at most 1000 and 1000
    when z is above 1000.  A request with limit=5000 is answered with at
    most 1000 records, each of them stored, and without filters with
    exactly 1000 when 1000 or more are stored. *)
Theorem C5_limit_default_and_cap (d : db) :
  effective_limit Undefined = Some (Finite 200 0) /\
  effective_limit (Str "") = Some (Finite 200 0) /\
  (forall s z, Literal.parseInt s = Finite z 0 -> - 2 ^ 53 <= z ->
     effective_limit (Str s) = Some (Finite (Z.min z 1000) 0)) /\
  (forall query status n rows,
     get query "limit" = Str "5000" ->
     sent (get_violations d query) = Json status (Listing n rows) ->
     status = 200 /\ n = List.length rows /\ Z.of_nat n <= 1000 /\
     forall v, In v rows -> In v (violations d)) /\
  (exists rows,
     get_violations d Sample.limit_5000
     = mkoutcome (Json 200 (Listing (List.length rows) rows)) [] d /\
     Z.of_nat (List.length rows)
     = Z.min 1000 (Z.of_nat (List.length (violations d)))).
Proof.
  assert (Hstr : forall s, s <> "" ->
            effective_limit (Str s)
            = Some (Number.min (Literal.parseInt s) (Finite 1000 0))).
  { intros s Hs. unfold effective_limit. simpl.
    destruct (String.eqb_spec s ""); [contradiction | reflexivity]. }
  split; [reflexivity | split; [reflexivity | split; [| split]]].
  - intros s z Hp _.
    assert (Hs : s <> "") by (intros ->; discriminate).
    rewrite (Hstr s Hs), Hp. rewrite min_1000. reflexivity.
  - intros query status n rows Hq. unfold get_violations. rewrite Hq.
    change (effective_limit (Str "5000")) with (Some (Finite 1000 0)).
    cbn [and_then].
    destruct (filter_param true (get query "tier")) as [tier |];
      cbn [and_then]; [| discriminate].
    destruct (filter_param false (get query "device")) as [device |];
      cbn [and_then]; [| discriminate].
    destruct (select_1000_count d (where_terms tier device))
      as [rows' [Hsel [Hlen [Hin _]]]].
    rewrite Hsel. simpl. intros H. inversion H; subst.
    repeat split; try assumption. intros v Hv. apply (Hin v Hv).
  - destruct (select_1000_count d []) as [rows [Hsel [_ [_ Hlen]]]].
    exists rows. split; [| apply Hlen; reflexivity].
    change (get_violations d Sample.limit_5000)
      with (match select d [] (Finite 1000 0) with
            | inr rows =>
                mkoutcome (Json 200 (Listing (List.length rows) rows)) [] d
            | inl err => mkoutcome (Json 500 (Error (message err))) [] d
            end).
    rewrite Hsel. reflexivity.
Qed.

(** C5, amended, at limit=5000 and limit=50. *)
Lemma C5_limit_default_and_cap_witness :
  effective_limit (Str "5000") = Some (Finite 1000 0) /\
  effective_limit (Str "50") = Some (Finite 50 0).
Proof.
  split.
  - apply (proj1 (proj2 (proj2 (C5_limit_default_and_cap empty))) "5000" 5000).
    + reflexivity.
    + lia.
  - apply (proj1 (proj2 (proj2 (C5_limit_default_and_cap empty))) "50" 50).
    + reflexivity.
    + lia.
Defined.

(** ** Invariants of the store *)

(** A POST leaves the store as it was or appends one row of a valid
    tier. *)
Lemma post_store (now : string) (d : db) (body : object) :
  store (post_violation now d body) = d \/
  exists v seq,
    In (Violation.tier v) tiers /\
    store (post_violation now d body) = mkdb (violations d ++ [v]) seq.
Proof.
  unfold post_violation.
  destruct (validateViolation body) eqn:Hval; [| left; reflexivity].
  destruct (make_row body) as [r |] eqn:Hrow; [| left; reflexivity].
  destruct (stmtInsert_run now d r) as [e | [d' id]] eqn:Hrun;
    [left; reflexivity |].
  right.
  apply validate_passes in Hval.
  destruct Hval as [s [l [t [Hs [Hl [Ht Hin]]]]]].
  destruct (make_row_valid body s l t r Hs Hl Ht Hin Hrow)
    as [_ [_ [_ [Hrt _]]]].
  apply stmtInsert_run_inr in Hrun.
  destruct Hrun as [device [_ [_ [_ [_ [_ Hd']]]]]].
  eexists. exists id.
  split; [| destruct (post_log id body); simpl; exact Hd'].
  simpl. rewrite Hrt. exact Hin.
Qed.

Lemma handle_tiers_valid (e : env) (now : string) (d : db) (r : request) :
  tiers_valid d -> tiers_valid (store (handle e now d r)).
Proof.
  intros Hd. destruct r as [body | query | id | query]; simpl.
  - destruct (post_store now d body) as [-> | [v [seq [Hin ->]]]];
      [exact Hd |].
    unfold tiers_valid in *. simpl. apply Forall_app. split; [exact Hd |].
    constructor; [exact Hin | constructor].
  - unfold get_violations.
    destruct (let? limit := _ in _) as [[limit terms] |]; [| exact Hd].
    destruct (select d terms limit); exact Hd.
  - unfold get_violation. destruct (stmtById_get _ _); exact Hd.
  - unfold delete_violations. destruct (differs _ _); [exact Hd |].
    constructor.
Qed.

Lemma run_tiers_valid (e : env) (rs : list (string * request)) (d : db) :
  tiers_valid d -> tiers_valid (run e d rs).
Proof.
  revert d. induction rs as [| [now r] rs IH]; intros d Hd; simpl.
  - exact Hd.
  - apply IH. apply handle_tiers_valid. exact Hd.
Qed.

(** When every tier is one of the three, the three counts add up to the
    number of rows. *)
Lemma count_tiers (l : list Violation.t) :
  Forall (fun v => In (Violation.tier v) tiers) l ->
  Z.of_nat (List.length l)
  = count_tier "SEVERE" l + count_tier "MODERATE" l + count_tier "MINOR" l.
Proof.
  unfold count_tier. induction 1 as [| v l Hv _ IH]; [reflexivity |].
  simpl List.length. rewrite Nat2Z.inj_succ, IH. simpl filter.
  unfold tiers in Hv. simpl in Hv.
  destruct Hv as [<- | [<- | [<- | []]]];
    cbn [String.eqb Ascii.eqb Bool.eqb List.length];
    rewrite ?Nat2Z.inj_succ; lia.
Qed.

(** C6: after every sequence of requests on an empty store (inserts that
    succeed or fail, delete-alls accepted or refused, reads), every stored
    tier is one of MINOR, MODERATE, SEVERE, and the total of the statistics
    is the sum of the severe, moderate and minor counts (each of them null
    on an empty table, and adding as 0). *)
Theorem C6_tiers_valid_and_total_is_sum
  (e : env) (rs : list (string * request)) :
  let d := run e empty rs in
  tiers_valid d /\
  total (stmtStats_get d)
  = addend (severe (stmtStats_get d)) + addend (moderate (stmtStats_get d))
    + addend (minor (stmtStats_get d)) /\
  (violations d <> [] ->
   severe (stmtStats_get d) = Some (count_tier "SEVERE" (violations d)) /\
   moderate (stmtStats_get d) = Some (count_tier "MODERATE" (violations d)) /\
   minor (stmtStats_get d) = Some (count_tier "MINOR" (violations d))).
Proof.
  intros d.
  assert (Hd : tiers_valid d) by (apply run_tiers_valid; constructor).
  split; [exact Hd | split].
  - unfold stmtStats_get. simpl.
    pose proof (count_tiers (violations d) Hd) as Hcount.
    destruct (violations d); [reflexivity | exact Hcount].
  - intros Hne. unfold stmtStats_get. simpl.
    destruct (violations d); [contradiction | repeat split].
Qed.

(** ** DELETE /api/violations *)

Lemma differs_false (v : value) (s : string) :
  differs v s = false <-> v = Str s.
Proof.
  destruct v; simpl; split; intros H; try discriminate.
  - destruct (String.eqb_spec s0 s); [subst; reflexivity | discriminate].
  - inversion H; subst. rewrite String.eqb_refl. reflexivity.
Qed.

(** C7: a DELETE whose key is not the configured secret (another string,
    no key at all, or a value that is not a string) is answered 401 with
    error "Unauthorized" and leaves the store as it was; a DELETE whose key
    is the secret is answered 200 with ok true and leaves no record. *)
Theorem C7_delete_needs_the_admin_key (e : env) (d : db) (query : object) :
  (get query "key" <> Str (ADMIN_KEY e) ->
     sent (delete_violations e d query) = Json 401 (Error "Unauthorized") /\
     store (delete_violations e d query) = d) /\
  (get query "key" = Str (ADMIN_KEY e) ->
     exists b,
       sent (delete_violations e d query) = Json 200 b /\ ok b = true /\
       violations (store (delete_violations e d query)) = [] /\
       List.length (violations (store (delete_violations e d query))) = 0%nat).
Proof.
  unfold delete_violations. split; intros H.
  - destruct (differs (get query "key") (ADMIN_KEY e)) eqn:E.
    + split; reflexivity.
    + apply differs_false in E. contradiction.
  - apply differs_false in H. rewrite H. eexists. repeat split.
Qed.

(** C7 with the default secret, on a store of one record: the key "guess"
    is refused, the key "changeme" empties the store. *)
Lemma C7_delete_needs_the_admin_key_witness :
  let d := store (post_violation Sample.noon empty Sample.severe) in
  store (delete_violations (mkenv None) d [("key", Str "guess")]) = d /\
  violations (store (delete_violations (mkenv None) d [("key", Str "changeme")]))
  = [].
Proof.
  intros d. split.
  - apply (proj1 (C7_delete_needs_the_admin_key (mkenv None) d
                    [("key", Str "guess")])).
    discriminate.
  - destruct (proj2 (C7_delete_needs_the_admin_key (mkenv None) d
                       [("key", Str "changeme")]) eq_refl)
      as [b [_ [_ [H _]]]].
    exact H.
Defined.

(** ** What a stored record holds *)




(** C9, as stated, fails: the accepted payload [{device:"", speed:80,
    limit:50, tier:"SEVERE"}] stores a record whose device is the empty
    string. *)
Lemma C9_empty_device_is_stored :
  sent (post_violation Sample.noon empty Sample.empty_device)
  = Json 201 (Created 1) /\
  map Violation.device
      (violations (store (post_violation Sample.noon empty Sample.empty_device)))
  = [""].
Proof.
  split; reflexivity.
Qed.

(** C9, amended: the device of every record a POST stores is text, never
    NULL; a payload without device stores the string "UNKNOWN", and a
    payload whose device is a string stores that string as it is, the
    empty string included. *)
Theorem C9_device_is_stored_as_submitted
  (now : string) (d : db) (body : object) (id : Z) :
  sent (post_violation now d body) = Json 201 (Created id) ->
  exists v,
    In v (violations (store (post_violation now d body))) /\
    Violation.id v = id /\
    (get body "device" = Undefined -> Violation.device v = "UNKNOWN") /\
    (forall s, get body "device" = Str s -> Violation.device v = s).
Proof.
  intros Hcreated.
  destruct (post_created_record now d body id Hcreated)
    as [v [r [_ [_ [_ [_ [_ [Hdev [_ [_ [_ [_
         [Hid [_ [_ [Hstore _]]]]]]]]]]]]]]]].
  exists v. split; [| split; [exact Hid | split]].
  - rewrite Hstore. simpl. apply in_or_app. right. left. reflexivity.
  - intros Hu. rewrite Hu in Hdev. cbn in Hdev. unfold ret in Hdev. congruence.
  - intros s Hstr. rewrite Hstr in Hdev. cbn in Hdev. unfold ret in Hdev. congruence.
Qed.

(** C9, amended, at [{speed:80, limit:50, tier:"SEVERE"}] on an empty
    store: the stored device is "UNKNOWN". *)
Lemma C9_device_is_stored_as_submitted_witness :
  sent (post_violation Sample.noon empty Sample.no_device)
  = Json 201 (Created 1) /\
  exists v,
    In v (violations (store (post_violation Sample.noon empty Sample.no_device)))
    /\ Violation.device v = "UNKNOWN".
Proof.
  split; [reflexivity |].
  destruct (C9_device_is_stored_as_submitted Sample.noon empty Sample.no_device
              1 eq_refl) as [v [Hin [_ [Hdef _]]]].
  exists v. split; [exact Hin | apply Hdef; reflexivity].
Defined.

(** C10: the payload [{speed:80, limit:50, tier:"SEVERE", excess:"abc"}]
    passes validation, its computed excess is NaN, the insert fails on the
    NOT NULL constraint of the column excess, and the answer is 500 with
    error "Database error", on every store.  The result of the validation
    does not depend on the excess, lat and lon of the payload. *)
Theorem C10_excess_is_not_validated
  (now : string) (d : db) (body : object) (v : value) :
  validateViolation Sample.excess_abc = [] /\
  option_map Row.excess (make_row Sample.excess_abc) = Some NaN /\
  (forall r, make_row Sample.excess_abc = Some r ->
     stmtInsert_run now d r = inl (NotNull "excess")) /\
  sent (post_violation now d Sample.excess_abc)
  = Json 500 (Error "Database error") /\
  store (post_violation now d Sample.excess_abc) = d /\
  validateViolation (("excess", v) :: body) = validateViolation body /\
  validateViolation (("lat", v) :: body) = validateViolation body /\
  validateViolation (("lon", v) :: body) = validateViolation body.
Proof.
  repeat split; try reflexivity.
  intros r Hr. inversion Hr; subst. reflexivity.
Qed.

(** ** The order of texts *)

Lemma ascii_compare_lt_trans (a b c : ascii) :
  Ascii.compare a b = Lt -> Ascii.compare b c = Lt -> Ascii.compare a c = Lt.
Proof.
  unfold Ascii.compare. rewrite !N.compare_lt_iff. lia.
Qed.

Lemma string_compare_lt_trans (a b c : string) :
  String.compare a b = Lt -> String.compare b c = Lt ->
  String.compare a c = Lt.
Proof.
  revert b c. induction a as [| x a IH]; intros [| y b] [| z c]; simpl;
    try discriminate; try reflexivity.
  destruct (Ascii.compare x y) eqn:Hxy; try discriminate;
    destruct (Ascii.compare y z) eqn:Hyz; try discriminate; intros H1 H2.
  - apply Ascii.compare_eq_iff in Hxy, Hyz. subst.
    destruct (Ascii.compare z z) eqn:Hzz; try reflexivity.
    + eapply IH; eassumption.
    + pose proof (Ascii.compare_antisym z z) as Hanti.
      rewrite Hzz in Hanti. discriminate.
  - apply Ascii.compare_eq_iff in Hxy. subst. rewrite Hyz. reflexivity.
  - apply Ascii.compare_eq_iff in Hyz. subst. rewrite Hxy. reflexivity.
  - rewrite (ascii_compare_lt_trans x y z Hxy Hyz). reflexivity.
Qed.

Lemma string_ltb_asym (a b : string) :
  String.ltb a b = true -> String.ltb b a = false.
Proof.
  unfold String.ltb. rewrite (String.compare_antisym a b).
  destruct (String.compare b a); simpl; intros H; try discriminate;
    reflexivity.
Qed.

(** "Not before" is transitive. *)
Lemma string_ge_trans (a b c : string) :
  String.ltb a b = false -> String.ltb b c = false -> String.ltb a c = false.
Proof.
  unfold String.ltb. intros Hab Hbc.
  destruct (String.compare a c) eqn:Hac; try reflexivity.
  destruct (String.compare a b) eqn:Eab; try discriminate.
  - apply String.compare_eq_iff in Eab. subst. rewrite Hac in Hbc.
    discriminate.
  - destruct (String.compare b c) eqn:Ebc; try discriminate.
    + apply String.compare_eq_iff in Ebc. subst. rewrite Hac in Eab.
      discriminate.
    + (* c < b < a and a < c *)
      assert (Hcb : String.compare c b = Lt)
        by (rewrite String.compare_antisym, Ebc; reflexivity).
      assert (Hba : String.compare b a = Lt)
        by (rewrite String.compare_antisym, Eab; reflexivity).
      pose proof (string_compare_lt_trans _ _ _ Hac Hcb) as Hab'.
      rewrite Hab' in Eab. discriminate.
Qed.

(** ** The largest member of a group *)

Section Maximum.

Context {A : Type} (lt : A -> A -> bool) (P : A -> Prop).

Hypothesis lt_asym : forall x y, P x -> P y -> lt x y = true -> lt y x = false.
Hypothesis ge_trans :
  forall x y z, P x -> P y -> P z ->
                lt x y = false -> lt y z = false -> lt x z = false.

Lemma maximum_In (x : A) (l : list A) : In (maximum lt x l) (x :: l).
Proof.
  revert x. induction l as [| y l IH]; intros x; simpl; [left; reflexivity |].
  destruct (IH (if lt x y then y else x)) as [H | H].
  - destruct (lt x y); [right; left | left]; exact H.
  - right. right. exact H.
Qed.

Lemma lt_irrefl (x : A) : P x -> lt x x = false.
Proof.
  intros Hx. destruct (lt x x) eqn:E; [| reflexivity].
  rewrite (lt_asym x x Hx Hx E) in E. discriminate.
Qed.

Lemma maximum_upper (x : A) (l : list A) :
  Forall P (x :: l) ->
  forall y, In y (x :: l) -> lt (maximum lt x l) y = false.
Proof.
  revert x. induction l as [| z l IH]; intros x HP y Hy.
  - destruct Hy as [<- | []]. simpl. apply lt_irrefl.
    inversion HP; assumption.
  - simpl.
    assert (Px : P x) by (inversion HP; assumption).
    assert (Pz : P z) by (inversion HP as [| ? ? _ H]; inversion H; assumption).
    assert (Pl : Forall P l)
      by (inversion HP as [| ? ? _ H]; inversion H; assumption).
    set (m := if lt x z then z else x).
    assert (Pm : P m) by (unfold m; destruct (lt x z); assumption).
    assert (HPm : Forall P (m :: l)) by (constructor; assumption).
    assert (Pmax : P (maximum lt m l)).
    { pose proof (maximum_In m l) as Hin.
      rewrite Forall_forall in HPm. apply HPm. exact Hin. }
    assert (Hmm : lt (maximum lt m l) m = false)
      by (apply (IH m HPm); left; reflexivity).
    destruct Hy as [<- | [<- | Hy]].
    + apply (ge_trans _ m _ Pmax Pm Px Hmm).
      unfold m. destruct (lt x z) eqn:E.
      * apply lt_asym; assumption.
      * apply lt_irrefl; assumption.
    + apply (ge_trans _ m _ Pmax Pm Pz Hmm).
      unfold m. destruct (lt x z) eqn:E.
      * apply lt_irrefl; assumption.
      * exact E.
    + apply (IH m HPm). right. exact Hy.
Qed.

End Maximum.

(** ** ORDER BY ... DESC *)

Section Descending.

Context {A : Type} (key : A -> string).

Let ge (a b : A) : Prop := String.ltb (key a) (key b) = false.

Lemma insert_desc_by_perm (x : A) (l : list A) :
  Permutation (x :: l) (insert_desc_by key x l).
Proof.
  induction l as [| w l IH]; simpl; [apply Permutation_refl |].
  destruct (String.ltb _ _); [apply Permutation_refl |].
  eapply Permutation_trans; [apply perm_swap |].
  apply perm_skip. exact IH.
Qed.

Lemma sort_desc_by_perm (l : list A) :
  Permutation l (fold_right (insert_desc_by key) [] l).
Proof.
  induction l as [| x l IH]; simpl; [apply Permutation_refl |].
  eapply Permutation_trans; [| apply insert_desc_by_perm].
  apply perm_skip. exact IH.
Qed.

Lemma insert_desc_by_sorted (x : A) (l : list A) :
  StronglySorted ge l -> StronglySorted ge (insert_desc_by key x l).
Proof.
  induction 1 as [| w l Hl IH Hw]; simpl.
  - constructor; constructor.
  - destruct (String.ltb (key w) (key x)) eqn:E.
    + constructor; [constructor; assumption |].
      assert (Hxw : ge x w) by (apply string_ltb_asym; exact E).
      constructor; [exact Hxw |].
      rewrite Forall_forall in Hw |- *. intros y Hy.
      apply (string_ge_trans _ (key w) _ Hxw (Hw y Hy)).
    + constructor; [exact IH |].
      rewrite Forall_forall in Hw |- *. intros y Hy.
      apply (Permutation_in _ (Permutation_sym (insert_desc_by_perm x l)))
        in Hy.
      destruct Hy as [<- | Hy]; [exact E | apply Hw; exact Hy].
Qed.

Lemma sort_desc_by_sorted (l : list A) :
  StronglySorted ge (fold_right (insert_desc_by key) [] l).
Proof.
  induction l as [| x l IH]; simpl; [constructor |].
  apply insert_desc_by_sorted. exact IH.
Qed.

End Descending.

Lemma firstn_sorted {A : Type} (R : A -> A -> Prop) (n : nat) (l : list A) :
  StronglySorted R l -> StronglySorted R (firstn n l).
Proof.
  intros H. revert n. induction H as [| a l Hl IH Ha]; intros [| n]; simpl;
    try constructor.
  - apply IH.
  - rewrite Forall_forall in Ha |- *. intros y Hy. apply Ha.
    apply (In_firstn n l y Hy).
Qed.

Lemma insert_desc_is_by (v : Violation.t) (l : list Violation.t) :
  insert_desc v l = insert_desc_by Violation.received_at v l.
Proof.
  induction l as [| w l IH]; simpl; [reflexivity |].
  rewrite IH. reflexivity.
Qed.

Lemma order_is_by (l : list Violation.t) :
  order_by_received_at_desc l
  = fold_right (insert_desc_by Violation.received_at) [] l.
Proof.
  unfold order_by_received_at_desc.
  induction l as [| v l IH]; simpl; [reflexivity |].
  rewrite IH. apply insert_desc_is_by.
Qed.

Lemma order_sorted (l : list Violation.t) :
  StronglySorted not_older (order_by_received_at_desc l).
Proof.
  rewrite order_is_by. apply (sort_desc_by_sorted Violation.received_at).
Qed.

Lemma insert_last_seen_is_by (s : Summary.t) (l : list Summary.t) :
  insert_last_seen_desc s l = insert_desc_by Summary.last_seen s l.
Proof.
  induction l as [| w l IH]; simpl; [reflexivity |].
  rewrite IH. reflexivity.
Qed.

Lemma stmtDevices_is_by (d : db) :
  stmtDevices_all d
  = fold_right (insert_desc_by Summary.last_seen) []
      (map (summarize d) (distinct_devices d)).
Proof.
  unfold stmtDevices_all.
  induction (map (summarize d) (distinct_devices d)) as [| s l IH]; simpl;
    [reflexivity |].
  rewrite IH. apply insert_last_seen_is_by.
Qed.

(** ** GET /api/violations: filters, order and count *)

Lemma toUpperCase_empty (s : string) : toUpperCase s = "" -> s = "".
Proof.
  destruct s; [reflexivity | discriminate].
Qed.

Lemma filter_param_asks (upper : bool) (q : value) (o : option string) :
  asks q o -> filter_param upper q = Some (filter_value upper o).
Proof.
  unfold asks, filter_param. destruct o as [s |].
  - intros [-> Hs]. simpl.
    destruct (String.eqb_spec s ""); [contradiction | reflexivity].
  - intros ->. reflexivity.
Qed.

Lemma where_terms_wanted (tier device : option string) (v : Violation.t) :
  (forall t, tier = Some t -> t <> "") ->
  (forall s, device = Some s -> s <> "") ->
  forallb (holds v)
          (where_terms (filter_value true tier) (filter_value false device))
  = wanted tier device v.
Proof.
  intros Ht Hd. unfold where_terms, wanted, filter_value.
  assert (Hne : forall s, s <> "" -> negb (String.eqb s "") = true).
  { intros s Hs. destruct (String.eqb_spec s ""); [contradiction | reflexivity]. }
  destruct tier as [t |], device as [s |]; cbn [truthy].
  - rewrite (Hne (toUpperCase t)), (Hne s).
    + simpl. rewrite andb_true_r. reflexivity.
    + apply Hd. reflexivity.
    + intros H. apply toUpperCase_empty in H. apply (Ht t eq_refl H).
  - rewrite (Hne (toUpperCase t)).
    + simpl. reflexivity.
    + intros H. apply toUpperCase_empty in H. apply (Ht t eq_refl H).
  - rewrite (Hne s).
    + simpl. rewrite andb_true_r. reflexivity.
    + apply Hd. reflexivity.
  - reflexivity.
Qed.

Lemma asks_nonempty (q : value) (o : option string) :
  asks q o -> forall s, o = Some s -> s <> "".
Proof.
  intros H s ->. destruct H as [_ H]. exact H.
Qed.

Lemma filter_ext_in {A : Type} (f g : A -> bool) (l : list A) :
  (forall x, f x = g x) -> filter f l = filter g l.
Proof.
  intros H. induction l as [| x l IH]; simpl; [reflexivity |].
  rewrite H, IH. reflexivity.
Qed.

(** LIMIT with an integer in range. *)
Lemma limit_integer (z : Z) (l : list Violation.t) :
  - 2 ^ 63 < z < 2 ^ 63 ->
  limit (Finite z 0) l = inr (if z <? 0 then l else firstn (Z.to_nat z) l).
Proof.
  intros [Hlo Hhi]. unfold limit. cbn [Number.to_Z].
  destruct (Z.ltb_spec (- 2 ^ 63) z); [| lia].
  destruct (Z.ltb_spec z (2 ^ 63)); [| lia].
  reflexivity.
Qed.

(** The effective limit never exceeds the cap. *)
Lemma effective_limit_cap (q : value) (z : Z) :
  effective_limit q = Some (Finite z 0) -> z <= 1000.
Proof.
  unfold effective_limit.
  destruct (parseInt (if truthy q then q else Str "200")) as [n |];
    [| discriminate].
  cbn [option_map]. intros H. inversion H as [Hmin]. clear H.
  unfold Number.min in Hmin. destruct n as [| s | m k]; try discriminate.
  - destruct (Number.ltb (Finite 1000 0) (Infinity s)).
    + inversion Hmin. lia.
    + discriminate.
  - destruct (Number.ltb (Finite 1000 0) (Finite m k)) eqn:E.
    + inversion Hmin. lia.
    + inversion Hmin; subst. unfold Number.ltb, Number.rescale in E.
      simpl in E. rewrite Z.mul_1_r in E. apply Z.ltb_ge in E. exact E.
Qed.

(** What a listing is made of. *)
Lemma get_violations_listing
  (d : db) (query : object) (status : Z) (n : nat) (rows : list Violation.t) :
  sent (get_violations d query) = Json status (Listing n rows) ->
  status = 200 /\ n = List.length rows /\
  exists lim tier device,
    effective_limit (get query "limit") = Some lim /\
    filter_param true (get query "tier") = Some tier /\
    filter_param false (get query "device") = Some device /\
    select d (where_terms tier device) lim = inr rows.
Proof.
  unfold get_violations.
  destruct (effective_limit (get query "limit")) as [lim |];
    cbn [and_then]; [| discriminate].
  destruct (filter_param true (get query "tier")) as [tier |];
    cbn [and_then]; [| discriminate].
  destruct (filter_param false (get query "device")) as [device |];
    cbn [and_then]; [| discriminate].
  destruct (select d (where_terms tier device) lim) as [err | rows'] eqn:Hsel;
    simpl; intros H; inversion H; subst.
  repeat split. exists lim, tier, device. auto.
Qed.

(** The rows a successful SELECT returns: stored, selected by every term,
    newest first. *)
Lemma select_rows
  (d : db) (terms : list term) (lim : number) (rows : list Violation.t) :
  select d terms lim = inr rows ->
  StronglySorted not_older rows /\
  forall v, In v rows ->
            In v (violations d) /\ forallb (holds v) terms = true.
Proof.
  unfold select, limit.
  destruct (Number.to_Z lim) as [z |]; [| discriminate].
  destruct ((- 2 ^ 63 <? z) && (z <? 2 ^ 63)); [| discriminate].
  intros H. inversion H as [Hrows]. clear H.
  set (all := order_by_received_at_desc
                (filter (fun v => forallb (holds v) terms) (violations d))).
  assert (Hall : forall v, In v all ->
                   In v (violations d) /\ forallb (holds v) terms = true).
  { intros v Hv. unfold all in Hv.
    apply (Permutation_in _ (Permutation_sym (order_perm _))) in Hv.
    apply filter_In in Hv. exact Hv. }
  destruct (z <? 0).
  - split; [apply order_sorted | exact Hall].
  - split; [apply firstn_sorted; apply order_sorted |].
    intros v Hv. apply Hall. apply (In_firstn _ _ _ Hv).
Qed.

(** The rows of a listing, under string filters. *)
Lemma listing_rows
  (d : db) (query : object) (tier device : option string)
  (status : Z) (n : nat) (rows : list Violation.t) :
  asks (get query "tier") tier -> asks (get query "device") device ->
  sent (get_violations d query) = Json status (Listing n rows) ->
  status = 200 /\ n = List.length rows /\
  StronglySorted not_older rows /\
  forall v, In v rows -> In v (violations d) /\ wanted tier device v = true.
Proof.
  intros Ht Hd Hsent.
  destruct (get_violations_listing d query status n rows Hsent)
    as [Hstatus [Hn [lim [tv [dv [_ [Htv [Hdv Hsel]]]]]]]].
  rewrite (filter_param_asks true _ _ Ht) in Htv.
  rewrite (filter_param_asks false _ _ Hd) in Hdv.
  inversion Htv; inversion Hdv; subst tv dv.
  destruct (select_rows d _ lim rows Hsel) as [Hsorted Hin].
  repeat split; try assumption.
  - apply (Hin v H).
  - rewrite <- (where_terms_wanted tier device v
                  (asks_nonempty _ _ Ht) (asks_nonempty _ _ Hd)).
    apply (Hin v H).
Qed.

(** X1: when the tier parameter is absent or a non-empty ASCII string,
    the device parameter is absent or a non-empty string and the effective
    limit is not an integer below -2^53, every row of a listing is a
    stored row that matches the filters asked for (the tier compared with
    the upper-cased parameter, the device as given), the count is the
    number of rows, and the rows come newest first. *)
Theorem X1_listing_is_filtered_and_ordered
  (d : db) (query : object) (tier device : option string)
  (status : Z) (n : nat) (rows : list Violation.t) :
  asks (get query "tier") tier -> (forall t, tier = Some t -> ascii_only t) ->
  asks (get query "device") device ->
  limit_in_range (get query "limit") ->
  sent (get_violations d query) = Json status (Listing n rows) ->
  status = 200 /\ n = List.length rows /\
  StronglySorted not_older rows /\
  forall v, In v rows -> In v (violations d) /\ wanted tier device v = true.
Proof.
  intros Ht _ Hd _. apply listing_rows; assumption.
Qed.

(** X1 at ?tier=severe on a store of one SEVERE record. *)
Lemma X1_listing_is_filtered_and_ordered_witness :
  sent (get_violations Example.one_severe Example.tier_severe)
  = Json 200 (Listing 1 (violations Example.one_severe)) /\
  forall v, In v (violations Example.one_severe) ->
            wanted (Some "severe") None v = true.
Proof.
  assert (Hsent : sent (get_violations Example.one_severe Example.tier_severe)
                  = Json 200 (Listing 1 (violations Example.one_severe)))
    by (vm_compute; reflexivity).
  split; [exact Hsent |].
  intros v Hv.
  apply (X1_listing_is_filtered_and_ordered Example.one_severe
           Example.tier_severe (Some "severe") None 200 1
           (violations Example.one_severe)).
  - split; [reflexivity | discriminate].
  - intros t Ht. inversion Ht; subst. ascii_text.
  - reflexivity.
  - intros z Hz. injection Hz as <-. lia.
  - exact Hsent.
  - exact Hv.
Defined.

(** With string filters, the handler is one SELECT over the wanted rows. *)
Lemma get_violations_select
  (d : db) (query : object) (tier device : option string) (lim : number) :
  asks (get query "tier") tier -> asks (get query "device") device ->
  effective_limit (get query "limit") = Some lim ->
  get_violations d query
  = match limit lim (order_by_received_at_desc
                       (filter (wanted tier device) (violations d))) with
    | inr rows => mkoutcome (Json 200 (Listing (List.length rows) rows)) [] d
    | inl err => mkoutcome (Json 500 (Error (message err))) [] d
    end.
Proof.
  intros Ht Hd Hlim. unfold get_violations.
  rewrite Hlim, (filter_param_asks true _ _ Ht),
    (filter_param_asks false _ _ Hd).
  cbn [and_then]. unfold select.
  rewrite (filter_ext_in _ (wanted tier device)); [reflexivity |].
  intros v. apply where_terms_wanted; eapply asks_nonempty; eassumption.
Qed.

(** X2: when the tier parameter is absent or a non-empty ASCII string,
    the device parameter is absent or a non-empty string and the effective
    limit is an integer z of at least -2^53, the answer is 200 with
    min(z, m) rows, m being the number of stored rows that match the
    filters, and with all m of them when z is negative; whenever the limit
    does not cut, the listing is exactly the matching rows. *)
Theorem X2_listing_count
  (d : db) (query : object) (tier device : option string) (z : Z) :
  asks (get query "tier") tier -> (forall t, tier = Some t -> ascii_only t) ->
  asks (get query "device") device ->
  effective_limit (get query "limit") = Some (Finite z 0) ->
  - 2 ^ 53 <= z ->
  let all := filter (wanted tier device) (violations d) in
  exists rows,
    get_violations d query
    = mkoutcome (Json 200 (Listing (List.length rows) rows)) [] d /\
    Z.of_nat (List.length rows)
    = (if z <? 0 then Z.of_nat (List.length all)
       else Z.min z (Z.of_nat (List.length all))) /\
    (z < 0 \/ Z.of_nat (List.length all) <= z -> Permutation all rows).
Proof.
  intros Ht _ Hd Hlim Hlo all.
  pose proof (effective_limit_cap _ _ Hlim) as Hcap.
  rewrite (get_violations_select d query tier device _ Ht Hd Hlim).
  fold all. rewrite limit_integer by lia.
  eexists. split; [reflexivity |].
  destruct (Z.ltb_spec z 0) as [Hneg | Hpos].
  - split; [rewrite order_length; reflexivity |].
    intros _. apply order_perm.
  - split.
    + rewrite length_firstn, order_length. lia.
    + intros [Hz | Hz]; [lia |].
      rewrite firstn_all2; [apply order_perm |].
      rewrite order_length. lia.
Qed.

(** X2 without parameters on a store of one record: the limit is 200 and
    the one record is listed. *)
Lemma X2_listing_count_witness :
  exists rows,
    get_violations Example.one_severe []
    = mkoutcome (Json 200 (Listing (List.length rows) rows)) []
        Example.one_severe /\
    Z.of_nat (List.length rows) = 1.
Proof.
  destruct (X2_listing_count Example.one_severe [] None None 200)
    as [rows [Hget [Hlen _]]]; try reflexivity; try discriminate.
  exists rows. split; [exact Hget | exact Hlen].
Defined.

(** X3: with the tier parameter absent or a non-empty ASCII string and
    the device parameter absent or a non-empty string, a limit that parses
    to 0 gives an empty listing, and a limit that parses to a negative
    integer of at least -2^53 lifts the cap of 1000: every stored row that
    matches the filters is listed. *)
Theorem X3_zero_and_negative_limit
  (d : db) (query : object) (tier device : option string) (s : string) (z : Z) :
  asks (get query "tier") tier -> (forall t, tier = Some t -> ascii_only t) ->
  asks (get query "device") device ->
  get query "limit" = Str s -> Literal.parseInt s = Finite z 0 ->
  - 2 ^ 53 <= z <= 0 ->
  (z = 0 -> get_violations d query = mkoutcome (Json 200 (Listing 0 [])) [] d) /\
  (z < 0 ->
   exists rows,
     get_violations d query
     = mkoutcome (Json 200 (Listing (List.length rows) rows)) [] d /\
     Permutation (filter (wanted tier device) (violations d)) rows).
Proof.
  intros Ht _ Hd Hq Hp Hz.
  assert (Hs : s <> "") by (intros ->; discriminate).
  assert (Hlim : effective_limit (get query "limit") = Some (Finite z 0)).
  { rewrite Hq. unfold effective_limit, truthy.
    destruct (String.eqb_spec s ""); [contradiction |].
    cbn [negb]. unfold parseInt. cbn [ToString option_map].
    rewrite Hp, min_1000. repeat f_equal. lia. }
  rewrite (get_violations_select d query tier device _ Ht Hd Hlim).
  rewrite limit_integer by lia. split.
  - intros ->. reflexivity.
  - intros Hneg. destruct (Z.ltb_spec z 0); [| lia].
    eexists. split; [reflexivity | apply order_perm].
Qed.

(** X3 at ?limit=-1 and ?limit=0 on a store of one record. *)
Lemma X3_zero_and_negative_limit_witness :
  get_violations Example.one_severe Example.limit_0
  = mkoutcome (Json 200 (Listing 0 [])) [] Example.one_severe /\
  exists rows,
    get_violations Example.one_severe Example.limit_minus_1
    = mkoutcome (Json 200 (Listing (List.length rows) rows)) []
        Example.one_severe /\
    Permutation (violations Example.one_severe) rows.
Proof.
  split.
  - apply (proj1 (X3_zero_and_negative_limit Example.one_severe Example.limit_0
                    None None "0" 0 eq_refl ltac:(discriminate) eq_refl
                    eq_refl eq_refl ltac:(lia))).
    reflexivity.
  - apply (proj2 (X3_zero_and_negative_limit Example.one_severe
                    Example.limit_minus_1 None None "-1" (-1)
                    eq_refl ltac:(discriminate) eq_refl eq_refl eq_refl
                    ltac:(lia))).
    lia.
Defined.

(** X4: the tier filter ignores the letter case of the parameter: two
    requests whose tier parameters have the same upper-cased form and whose
    other parameters are the same get the same answer. *)
Theorem X4_tier_filter_ignores_case (d : db) (query : object) (t t' : string) :
  toUpperCase t = toUpperCase t' ->
  get_violations d (("tier", Str t) :: query)
  = get_violations d (("tier", Str t') :: query).
Proof.
  intros Hup. unfold get_violations. cbn [get String.eqb Ascii.eqb Bool.eqb].
  assert (Hf : filter_param true (Str t) = filter_param true (Str t')).
  { unfold filter_param. cbn [truthy ToString option_map].
    destruct (String.eqb_spec t ""), (String.eqb_spec t' ""); subst;
      cbn [negb].
    - reflexivity.
    - symmetry in Hup. apply toUpperCase_empty in Hup. contradiction.
    - apply toUpperCase_empty in Hup. contradiction.
    - rewrite Hup. reflexivity. }
  rewrite Hf. reflexivity.
Qed.

(** X4 at tier=severe and tier=Severe. *)
Lemma X4_tier_filter_ignores_case_witness :
  get_violations Example.one_severe [("tier", Str "severe")]
  = get_violations Example.one_severe [("tier", Str "Severe")].
Proof.
  apply (X4_tier_filter_ignores_case Example.one_severe [] "severe" "Severe").
  reflexivity.
Defined.

(** X5: in every store reached from the empty one, a non-empty ASCII
    tier parameter whose upper-cased form is not MINOR, MODERATE or SEVERE
    is legal and matches no record: with the device parameter absent or a
    non-empty string and an effective limit that is not an integer below
    -2^53, the listing is empty. *)
Theorem X5_unknown_tier_matches_nothing
  (e : env) (rs : list (string * request)) (query : object)
  (t : string) (device : option string)
  (status : Z) (n : nat) (rows : list Violation.t) :
  get query "tier" = Str t -> t <> "" -> ascii_only t ->
  ~ In (toUpperCase t) tiers ->
  asks (get query "device") device ->
  limit_in_range (get query "limit") ->
  sent (get_violations (run e empty rs) query) = Json status (Listing n rows) ->
  status = 200 /\ n = 0%nat /\ rows = [].
Proof.
  intros Hq Ht _ Hnot Hd _ Hsent.
  destruct (listing_rows (run e empty rs) query (Some t) device status n rows
              (conj Hq Ht) Hd Hsent) as [Hstatus [Hn [_ Hall]]].
  assert (Hrows : rows = []).
  { destruct rows as [| v rows]; [reflexivity |]. exfalso.
    destruct (Hall v (or_introl eq_refl)) as [Hin Hw].
    unfold wanted in Hw. apply andb_true_iff in Hw. destruct Hw as [Hw _].
    apply String.eqb_eq in Hw.
    assert (Hvalid : tiers_valid (run e empty rs))
      by (apply run_tiers_valid; constructor).
    unfold tiers_valid in Hvalid. rewrite Forall_forall in Hvalid.
    apply Hnot. rewrite <- Hw. apply Hvalid. exact Hin. }
  subst rows. repeat split; assumption.
Qed.

(** X5 at ?tier=extreme on a store of one SEVERE record. *)
Lemma X5_unknown_tier_matches_nothing_witness :
  exists n rows,
    sent (get_violations
            (run (mkenv None) empty [(Sample.noon, POST_violation Sample.severe)])
            Example.tier_extreme)
    = Json 200 (Listing n rows) /\ rows = [].
Proof.
  exists 0%nat, [].
  assert (Hsent : sent (get_violations
                          (run (mkenv None) empty
                             [(Sample.noon, POST_violation Sample.severe)])
                          Example.tier_extreme)
                  = Json 200 (Listing 0 [])) by (vm_compute; reflexivity).
  assert (Hnot : ~ In (toUpperCase "extreme") tiers).
  { unfold tiers. simpl. intros [H | [H | [H | []]]]; discriminate. }
  split; [exact Hsent |].
  apply (X5_unknown_tier_matches_nothing (mkenv None)
           [(Sample.noon, POST_violation Sample.severe)]
           Example.tier_extreme "extreme" None 200 0 [] eq_refl
           ltac:(discriminate) ltac:(ascii_text) Hnot eq_refl
           ltac:(intros z Hz; injection Hz as <-; lia) Hsent).
Defined.

(** ** Row ids and the well-formed store *)

(** The two ways a POST ends: the store is as it was and the answer is not
    a 201, or a row was inserted and the answer is the 201 of its id. *)
Lemma post_effect (now : string) (d : db) (body : object) :
  (store (post_violation now d body) = d /\
   forall id, sent (post_violation now d body) <> Json 201 (Created id)) \/
  (exists r id,
     make_row body = Some r /\
     stmtInsert_run now d r = inr (store (post_violation now d body), id) /\
     sent (post_violation now d body) = Json 201 (Created id)).
Proof.
  destruct (validateViolation body) eqn:Hval.
  - destruct (post_valid_cases now d body Hval)
      as [[_ Hp] | [[r [err [_ [_ Hp]]]] | [r [d' [id [line [Hrow [Hrun Hp]]]]]]]];
      rewrite Hp; simpl.
    + left. split; [reflexivity | discriminate].
    + left. split; [reflexivity | discriminate].
    + right. exists r, id. auto.
  - left. rewrite post_rejected by (rewrite Hval; discriminate). simpl.
    split; [reflexivity | discriminate].
Qed.

Lemma sorted_snoc {A : Type} (R : A -> A -> Prop) (l : list A) (a : A) :
  StronglySorted R l -> Forall (fun x => R x a) l ->
  StronglySorted R (l ++ [a]).
Proof.
  induction 1 as [| x l Hl IH Hx]; intros Ha; simpl.
  - constructor; constructor.
  - inversion Ha as [| ? ? Hxa Hla]; subst.
    constructor; [apply IH; exact Hla |].
    apply Forall_app. split; [exact Hx | constructor; [exact Hxa | constructor]].
Qed.

Lemma real_or_null_valid (a : option number) : real_or_null a <> Some NaN.
Proof.
  destruct a as [[| s | m k] |]; simpl; discriminate.
Qed.

(** An insert keeps a store well formed. *)
Lemma insert_well_formed (now : string) (d d' : db) (r : Row.t) (id : Z) :
  well_formed d -> stmtInsert_run now d r = inr (d', id) -> well_formed d'.
Proof.
  intros [Hsorted [Hbound Hreal]] Hrun.
  apply stmtInsert_run_inr in Hrun.
  destruct Hrun as [device [_ [Hs [Hl [Hx [Hid ->]]]]]].
  assert (Hnext : forall v, In v (violations d) -> Violation.id v < id).
  { intros v Hv. apply max_rowid_ge in Hv. unfold next_rowid in Hid. lia. }
  assert (Hpos : 1 <= id).
  { pose proof (max_rowid_nonneg (violations d)). unfold next_rowid in Hid.
    lia. }
  unfold well_formed. cbn [violations sqlite_sequence].
  split; [| split].
  - rewrite map_app. apply sorted_snoc; [exact Hsorted |].
    rewrite Forall_forall. intros x Hx'. apply in_map_iff in Hx'.
    destruct Hx' as [v [<- Hv]]. simpl. apply Hnext. exact Hv.
  - apply Forall_app. split.
    + rewrite Forall_forall in Hbound |- *. intros v Hv.
      specialize (Hbound v Hv). specialize (Hnext v Hv). lia.
    + constructor; [simpl; lia | constructor].
  - apply Forall_app. split; [exact Hreal |].
    constructor; [| constructor]. unfold reals_valid. simpl.
    repeat split; try assumption; apply real_or_null_valid.
Qed.

Lemma handle_well_formed (e : env) (now : string) (d : db) (r : request) :
  well_formed d -> well_formed (store (handle e now d r)).
Proof.
  intros Hd. destruct r as [body | query | id | query]; simpl.
  - destruct (post_effect now d body) as [[-> _] | [r [id [_ [Hrun _]]]]];
      [exact Hd | exact (insert_well_formed _ _ _ _ _ Hd Hrun)].
  - unfold get_violations.
    destruct (let? limit := _ in _) as [[limit terms] |]; [| exact Hd].
    destruct (select d terms limit); exact Hd.
  - unfold get_violation. destruct (stmtById_get _ _); exact Hd.
  - unfold delete_violations. destruct (differs _ _); [exact Hd |].
    repeat split; constructor.
Qed.

Lemma run_well_formed (e : env) (rs : list (string * request)) (d : db) :
  well_formed d -> well_formed (run e d rs).
Proof.
  revert d. induction rs as [| [now r] rs IH]; intros d Hd; simpl.
  - exact Hd.
  - apply IH. apply handle_well_formed. exact Hd.
Qed.

Lemma empty_well_formed : well_formed empty.
Proof.
  repeat split; constructor.
Qed.

(** In a table of growing ids, an id finds the row that carries it. *)
Lemma find_by_id (l : list Violation.t) (v : Violation.t) :
  StronglySorted Z.lt (map Violation.id l) -> In v l ->
  find (fun w => Violation.id w =? Violation.id v) l = Some v.
Proof.
  induction l as [| w l IH]; simpl; intros Hs Hv; [contradiction |].
  apply StronglySorted_inv in Hs. destruct Hs as [Hs Hw].
  destruct Hv as [-> | Hv].
  - rewrite Z.eqb_refl. reflexivity.
  - rewrite Forall_forall in Hw.
    assert (Hlt : Violation.id w < Violation.id v)
      by (apply Hw; apply in_map; exact Hv).
    destruct (Z.eqb_spec (Violation.id w) (Violation.id v)); [lia |].
    apply IH; assumption.
Qed.

(** X6: in every store reached from the empty one, row ids are at least 1,
    never above the AUTOINCREMENT counter and strictly growing along the
    table, so no two records share an id; speed, limit and excess are
    never NaN, and lat and lon are a number or NULL. *)
Theorem X6_reachable_store_is_well_formed
  (e : env) (rs : list (string * request)) :
  let d := run e empty rs in
  well_formed d /\ NoDup (map Violation.id (violations d)).
Proof.
  intros d.
  assert (Hwf : well_formed d)
    by (apply run_well_formed; apply empty_well_formed).
  split; [exact Hwf |].
  destruct Hwf as [Hsorted _].
  induction Hsorted as [| x l Hl IH Hx]; constructor.
  - intros Hin. rewrite Forall_forall in Hx. specialize (Hx x Hin). lia.
  - exact IH.
Qed.

(** X7: in every store reached from the empty one, GET
    /api/violations/:id with the decimal id of a stored record returns that
    record with status 200. *)
Theorem X7_stored_record_is_found_by_its_id
  (e : env) (rs : list (string * request)) (v : Violation.t) :
  let d := run e empty rs in
  In v (violations d) ->
  get_violation d (digits (Violation.id v))
  = mkoutcome (Json 200 (Found v)) [] d.
Proof.
  intros d Hv.
  destruct (run_well_formed e rs empty empty_well_formed)
    as [Hsorted [Hbound _]].
  fold d in Hsorted, Hbound.
  rewrite Forall_forall in Hbound. specialize (Hbound v Hv).
  apply (get_violation_found d _ (Violation.id v)).
  - unfold stmtById_get. cbn [Number.to_Z]. apply find_by_id; assumption.
  - apply parseInt_digits. lia.
Qed.

(** X7 on the store of two accepted POSTs: the first record is found
    under the path text "1". *)
Lemma X7_stored_record_is_found_by_its_id_witness :
  exists v,
    In v (violations (run (mkenv None) empty Example.two_posts)) /\
    sent (get_violation (run (mkenv None) empty Example.two_posts) "1")
    = Json 200 (Found v).
Proof.
  eexists. split.
  - left. reflexivity.
  - match goal with
    | |- sent (get_violation _ _) = Json 200 (Found ?v) =>
        change "1" with (digits (Violation.id v))
    end.
    rewrite (X7_stored_record_is_found_by_its_id (mkenv None)
               Example.two_posts).
    + reflexivity.
    + left. reflexivity.
Defined.

(** X8: for an ASCII path text whose numeral, if it starts with one, is
    an integer of magnitude at most 2^53, GET /api/violations/:id answers
    200 only with a stored record whose id is the integer [parseInt] reads
    from the text, and 404 "Not found" in every other case: when no stored
    record has that id, and when the text does not start with a numeral.
    It never answers anything else and never touches the store. *)
Theorem X8_get_by_id_is_200_or_404 (d : db) (p : string) :
  ascii_only p ->
  (forall z, Literal.parseInt p = Finite z 0 -> safe_integer z) ->
  ((exists v,
      In v (violations d) /\
      Literal.parseInt p = Finite (Violation.id v) 0 /\
      get_violation d p = mkoutcome (Json 200 (Found v)) [] d) \/
   get_violation d p = mkoutcome (Json 404 (Error "Not found")) [] d) /\
  ((forall v, In v (violations d) ->
              Literal.parseInt p <> Finite (Violation.id v) 0) ->
   get_violation d p = mkoutcome (Json 404 (Error "Not found")) [] d) /\
  (Literal.parseInt p = NaN ->
   get_violation d p = mkoutcome (Json 404 (Error "Not found")) [] d).
Proof.
  intros _ _.
  assert (Hcases :
    (exists v,
       In v (violations d) /\
       Literal.parseInt p = Finite (Violation.id v) 0 /\
       get_violation d p = mkoutcome (Json 200 (Found v)) [] d) \/
    get_violation d p = mkoutcome (Json 404 (Error "Not found")) [] d).
  { unfold get_violation, stmtById_get.
    destruct (Literal.parseInt p) as [| s | m [| k]] eqn:Hp; cbn [Number.to_Z];
      try (right; reflexivity).
    destruct (find (fun v => Violation.id v =? m) (violations d)) as [v |] eqn:Hf;
      [| right; reflexivity].
    left. exists v. apply find_some in Hf. destruct Hf as [Hin Heq].
    apply Z.eqb_eq in Heq. subst m. auto. }
  split; [exact Hcases | split].
  - intros Hnone. destruct Hcases as [[v [Hin [Hp _]]] | H404]; [| exact H404].
    exfalso. apply (Hnone v Hin Hp).
  - intros Hnan. destruct Hcases as [[v [_ [Hp _]]] | H404]; [| exact H404].
    rewrite Hnan in Hp. discriminate.
Qed.

(** X8 at the path texts "abc" and "7" on a store of one record with
    id 1. *)
Lemma X8_get_by_id_is_200_or_404_witness :
  get_violation Example.one_severe "abc"
  = mkoutcome (Json 404 (Error "Not found")) [] Example.one_severe /\
  get_violation Example.one_severe "7"
  = mkoutcome (Json 404 (Error "Not found")) [] Example.one_severe.
Proof.
  split.
  - apply (proj2 (proj2 (X8_get_by_id_is_200_or_404 Example.one_severe "abc"
                           ltac:(ascii_text)
                           ltac:(intros z H; discriminate H)))).
    reflexivity.
  - apply (proj1 (proj2 (X8_get_by_id_is_200_or_404 Example.one_severe "7"
                           ltac:(ascii_text)
                           ltac:(intros z H; injection H as <-;
                                 unfold safe_integer; lia)))).
    intros v [<- | []]. discriminate.
Defined.

(** The AUTOINCREMENT counter never goes down. *)
Lemma handle_sequence (e : env) (now : string) (d : db) (r : request) :
  sqlite_sequence d <= sqlite_sequence (store (handle e now d r)).
Proof.
  destruct r as [body | query | id | query]; simpl.
  - destruct (post_effect now d body) as [[-> _] | [r [id [_ [Hrun _]]]]];
      [lia |].
    apply stmtInsert_run_inr in Hrun.
    destruct Hrun as [device [_ [_ [_ [_ [Hid ->]]]]]]. simpl.
    unfold next_rowid in Hid. lia.
  - unfold get_violations.
    destruct (let? limit := _ in _) as [[limit terms] |]; [| simpl; lia].
    destruct (select d terms limit); simpl; lia.
  - unfold get_violation. destruct (stmtById_get _ _); simpl; lia.
  - unfold delete_violations. destruct (differs _ _); simpl; lia.
Qed.

Lemma run_sequence (e : env) (rs : list (string * request)) (d : db) :
  sqlite_sequence d <= sqlite_sequence (run e d rs).
Proof.
  revert d. induction rs as [| [now r] rs IH]; intros d; simpl; [lia |].
  pose proof (handle_sequence e now d r). specialize (IH (store (handle e now d r))).
  lia.
Qed.

(** The id of a 201 is above the counter, and becomes the counter. *)
Lemma post_created_sequence (now : string) (d : db) (body : object) (id : Z) :
  sent (post_violation now d body) = Json 201 (Created id) ->
  sqlite_sequence d < id /\
  sqlite_sequence (store (post_violation now d body)) = id.
Proof.
  intros Hcreated.
  destruct (post_effect now d body) as [[_ Hnot] | [r [id' [_ [Hrun Hsent]]]]].
  - exfalso. apply (Hnot id Hcreated).
  - rewrite Hsent in Hcreated. inversion Hcreated; subst id'.
    apply stmtInsert_run_inr in Hrun.
    destruct Hrun as [device [_ [_ [_ [_ [Hid ->]]]]]]. simpl.
    unfold next_rowid in Hid. lia.
Qed.

(** X9: an id is never given out twice.  If a POST is answered 201 with
    an id, then after any further requests, delete-alls included, a POST
    that is answered 201 carries a larger id. *)
Theorem X9_ids_are_never_reused
  (e : env) (d : db) (now now' : string) (body body' : object)
  (rs : list (string * request)) (id id' : Z) :
  sent (post_violation now d body) = Json 201 (Created id) ->
  sent (post_violation now' (run e (store (post_violation now d body)) rs) body')
  = Json 201 (Created id') ->
  id < id'.
Proof.
  intros H1 H2.
  apply post_created_sequence in H1. destruct H1 as [_ Hseq].
  apply post_created_sequence in H2. destruct H2 as [Hlt _].
  pose proof (run_sequence e rs (store (post_violation now d body))). lia.
Qed.

(** X9 with a delete-all between two POSTs of the same payload: the ids
    are 1 and 2. *)
Lemma X9_ids_are_never_reused_witness :
  sent (post_violation Sample.noon empty Sample.severe) = Json 201 (Created 1) /\
  sent (post_violation Sample.noon
          (run (mkenv None) Example.one_severe Example.delete_all_request)
          Sample.severe) = Json 201 (Created 2) /\
  1 < 2.
Proof.
  assert (H1 : sent (post_violation Sample.noon empty Sample.severe)
               = Json 201 (Created 1)) by reflexivity.
  assert (H2 : sent (post_violation Sample.noon
                       (run (mkenv None) Example.one_severe
                          Example.delete_all_request)
                       Sample.severe) = Json 201 (Created 2))
    by (vm_compute; reflexivity).
  split; [exact H1 | split; [exact H2 |]].
  apply (X9_ids_are_never_reused (mkenv None) empty Sample.noon Sample.noon
           Sample.severe Sample.severe Example.delete_all_request 1 2 H1 H2).
Defined.

(** X10: what each request does to the store.  Take a POST whose excess
    is absent, null, a boolean, a number or an ASCII string.  Answered 201,
    it appends one record, carrying the returned id and the time of the
    insert, to the records that were there, which it leaves untouched, and
    sets the AUTOINCREMENT counter to the id; answered anything else, it
    leaves the store as it was.  A DELETE with the admin key empties
    the table and keeps the counter; a DELETE with any other key leaves the
    store as it was.  A GET, of the listing or by id, leaves the store as
    it was. *)
Theorem X10_only_created_and_delete_change_the_store
  (e : env) (now : string) (d : db) :
  (forall body id,
     ascii_input (get body "excess") ->
     sent (handle e now d (POST_violation body)) = Json 201 (Created id) ->
     exists v,
       Violation.id v = id /\ Violation.received_at v = now /\
       store (handle e now d (POST_violation body))
       = mkdb (violations d ++ [v]) id) /\
  (forall body,
     ascii_input (get body "excess") ->
     (forall id,
        sent (handle e now d (POST_violation body)) <> Json 201 (Created id)) ->
     store (handle e now d (POST_violation body)) = d) /\
  (forall query,
     get query "key" = Str (ADMIN_KEY e) ->
     store (handle e now d (DELETE_violations query))
     = mkdb [] (sqlite_sequence d)) /\
  (forall query,
     get query "key" <> Str (ADMIN_KEY e) ->
     store (handle e now d (DELETE_violations query)) = d) /\
  (forall query, store (handle e now d (GET_violations query)) = d) /\
  (forall p, store (handle e now d (GET_violation p)) = d).
Proof.
  cbn [handle]. split; [| split; [| split; [| split; [| split]]]].
  - intros body id _ Hsent.
    destruct (post_effect now d body) as [[_ Hnot] | [r [id' [_ [Hrun Hsent']]]]].
    + exfalso. apply (Hnot id Hsent).
    + rewrite Hsent in Hsent'. inversion Hsent'; subst id'.
      apply stmtInsert_run_inr in Hrun.
      destruct Hrun as [device [_ [_ [_ [_ [Hid Hd']]]]]].
      eexists. split; [| split; [| exact Hd']]; reflexivity.
  - intros body _ Hnot.
    destruct (post_effect now d body) as [[Hd _] | [r [id [_ [_ Hsent]]]]];
      [exact Hd |].
    exfalso. apply (Hnot id Hsent).
  - intros query Hkey. unfold delete_violations.
    apply differs_false in Hkey. rewrite Hkey. reflexivity.
  - intros query Hkey. unfold delete_violations.
    destruct (differs (get query "key") (ADMIN_KEY e)) eqn:E; [reflexivity |].
    apply differs_false in E. contradiction.
  - intros query. unfold get_violations.
    destruct (let? limit := _ in _) as [[limit terms] |]; [| reflexivity].
    destruct (select d terms limit); reflexivity.
  - intros p. unfold get_violation. destruct (stmtById_get _ _); reflexivity.
Qed.

(** X10 at the POST of the sample record into the empty store and at a
    DELETE without key on a store of one record. *)
Lemma X10_only_created_and_delete_change_the_store_witness :
  (exists v,
     Violation.id v = 1 /\ Violation.received_at v = Sample.noon /\
     store (handle (mkenv None) Sample.noon empty (POST_violation Sample.severe))
     = mkdb [v] 1) /\
  store (handle (mkenv None) Sample.noon Example.one_severe
           (DELETE_violations []))
  = Example.one_severe.
Proof.
  split.
  - apply (proj1 (X10_only_created_and_delete_change_the_store
                    (mkenv None) Sample.noon empty) Sample.severe 1).
    + exact I.
    + reflexivity.
  - apply (proj1 (proj2 (proj2 (proj2
             (X10_only_created_and_delete_change_the_store
                (mkenv None) Sample.noon Example.one_severe)))) []).
    discriminate.
Defined.

(** The admin key is never the empty string. *)
Lemma ADMIN_KEY_nonempty (e : env) : ADMIN_KEY e <> "".
Proof.
  unfold ADMIN_KEY. destruct (env_ADMIN_KEY e) as [s |]; [| discriminate].
  destruct (String.eqb_spec s ""); [discriminate | assumption].
Qed.

(** X11: whatever the environment, a DELETE without key, or with an empty
    or otherwise falsy key, is answered 401 and deletes nothing: an unset
    or empty ADMIN_KEY falls back to "changeme", it does not open the
    route. *)
Theorem X11_delete_without_key_is_refused (e : env) (d : db) (query : object) :
  truthy (get query "key") = false ->
  delete_violations e d query
  = mkoutcome (Json 401 (Error "Unauthorized")) [] d.
Proof.
  intros Hfalsy. unfold delete_violations.
  destruct (differs (get query "key") (ADMIN_KEY e)) eqn:E; [reflexivity |].
  apply differs_false in E. rewrite E in Hfalsy. simpl in Hfalsy.
  destruct (String.eqb_spec (ADMIN_KEY e) ""); [| discriminate].
  exfalso. apply (ADMIN_KEY_nonempty e). assumption.
Qed.

(** X11 with ADMIN_KEY set to the empty string and ?key= in the request. *)
Lemma X11_delete_without_key_is_refused_witness :
  store (delete_violations (mkenv (Some "")) Example.one_severe
           [("key", Str "")])
  = Example.one_severe.
Proof.
  rewrite (X11_delete_without_key_is_refused (mkenv (Some ""))
             Example.one_severe [("key", Str "")] eq_refl).
  reflexivity.
Defined.

(** X12: after a DELETE with the admin key nothing is left to read: every
    GET by id is answered 404, every listing is empty, the statistics count
    no record and no device, and the device list is empty; the
    AUTOINCREMENT counter is kept. *)
Theorem X12_after_delete_all_nothing_is_left
  (e : env) (d : db) (query : object) :
  get query "key" = Str (ADMIN_KEY e) ->
  let d' := store (delete_violations e d query) in
  (forall p,
     get_violation d' p = mkoutcome (Json 404 (Error "Not found")) [] d') /\
  (forall q status n rows,
     sent (get_violations d' q) = Json status (Listing n rows) ->
     n = 0%nat /\ rows = []) /\
  stmtStats_get d' = mkstats 0 None None None /\
  count_distinct_device d' = 0 /\
  stmtDevices_all d' = [] /\
  sqlite_sequence d' = sqlite_sequence d.
Proof.
  intros Hkey d'.
  assert (Hd' : d' = delete_all d).
  { unfold d', delete_violations.
    destruct (differs (get query "key") (ADMIN_KEY e)) eqn:E; [| reflexivity].
    apply differs_false in Hkey. rewrite Hkey in E. discriminate. }
  rewrite Hd'. unfold delete_all.
  split; [| split; [| repeat split]].
  - intros p. unfold get_violation, stmtById_get. cbn [violations find].
    destruct (Number.to_Z (Literal.parseInt p)); reflexivity.
  - intros q status n rows Hsent.
    destruct (get_violations_listing _ q status n rows Hsent)
      as [_ [Hn [lim [tv [dv [_ [_ [_ Hsel]]]]]]]].
    destruct (select_rows _ _ lim rows Hsel) as [_ Hin].
    assert (Hrows : rows = []).
    { destruct rows as [| v rows]; [reflexivity |].
      destruct (Hin v (or_introl eq_refl)) as [[] _]. }
    subst rows. split; [exact Hn | reflexivity].
Qed.

(** X12 with the default key on a store of one record. *)
Lemma X12_after_delete_all_nothing_is_left_witness :
  get_violation
    (store (delete_violations (mkenv None) Example.one_severe
              [("key", Str "changeme")])) "1"
  = mkoutcome (Json 404 (Error "Not found")) []
      (store (delete_violations (mkenv None) Example.one_severe
                [("key", Str "changeme")])).
Proof.
  apply (proj1 (X12_after_delete_all_nothing_is_left (mkenv None)
                  Example.one_severe [("key", Str "changeme")] eq_refl)).
Defined.

(** ** The order of numbers *)

Lemma pow10_pos (n : nat) : 0 < 10 ^ Z.of_nat n.
Proof.
  apply Z.pow_pos_nonneg; lia.
Qed.

Lemma pow10_split (a b : nat) :
  (a <= b)%nat -> 10 ^ Z.of_nat b = 10 ^ Z.of_nat (b - a) * 10 ^ Z.of_nat a.
Proof.
  intros H. rewrite <- Z.pow_add_r by lia. f_equal. lia.
Qed.

(** Two finite numbers compare as their cross products. *)
Lemma ltb_finite (m n : Z) (k j : nat) :
  Number.ltb (Finite m k) (Finite n j)
  = (m * 10 ^ Z.of_nat j <? n * 10 ^ Z.of_nat k).
Proof.
  unfold Number.ltb, Number.rescale.
  set (s := Nat.max k j).
  assert (Hk : (k <= s)%nat) by (unfold s; lia).
  assert (Hj : (j <= s)%nat) by (unfold s; lia).
  pose proof (pow10_split k s Hk) as Ek.
  pose proof (pow10_split j s Hj) as Ej.
  pose proof (pow10_pos k) as Pk. pose proof (pow10_pos j) as Pj.
  pose proof (pow10_pos (s - k)) as Pa. pose proof (pow10_pos (s - j)) as Pb.
  set (K := 10 ^ Z.of_nat k) in *. set (J := 10 ^ Z.of_nat j) in *.
  set (a := 10 ^ Z.of_nat (s - k)) in *. set (b := 10 ^ Z.of_nat (s - j)) in *.
  set (S := 10 ^ Z.of_nat s) in *.
  destruct (Z.ltb_spec (m * a) (n * b)) as [H | H];
    destruct (Z.ltb_spec (m * J) (n * K)) as [H' | H']; try reflexivity;
    exfalso.
  - assert (H1 : m * a * (K * J) < n * b * (K * J))
      by (apply Z.mul_lt_mono_pos_r; nia).
    assert (H2 : n * K * S <= m * J * S)
      by (apply Z.mul_le_mono_nonneg_r; lia).
    replace (m * a * (K * J)) with (m * J * S) in H1 by (rewrite Ek; ring).
    replace (n * b * (K * J)) with (n * K * S) in H1 by (rewrite Ej; ring).
    lia.
  - assert (H1 : n * b * (K * J) <= m * a * (K * J))
      by (apply Z.mul_le_mono_nonneg_r; nia).
    assert (H2 : m * J * S < n * K * S)
      by (apply Z.mul_lt_mono_pos_r; nia).
    replace (m * a * (K * J)) with (m * J * S) in H1 by (rewrite Ek; ring).
    replace (n * b * (K * J)) with (n * K * S) in H1 by (rewrite Ej; ring).
    lia.
Qed.

Lemma number_ltb_asym (x y : number) :
  Number.is_nan x = false -> Number.is_nan y = false ->
  Number.ltb x y = true -> Number.ltb y x = false.
Proof.
  destruct x as [| s | m k], y as [| t | n j]; try discriminate; intros _ _.
  - simpl. destruct s, t; simpl; intros H; try discriminate; reflexivity.
  - simpl. intros ->. reflexivity.
  - simpl. destruct t; simpl; intros H; try discriminate; reflexivity.
  - rewrite !ltb_finite. intros H. apply Z.ltb_lt in H. apply Z.ltb_ge. lia.
Qed.

Lemma number_ge_trans (x y z : number) :
  Number.is_nan x = false -> Number.is_nan y = false ->
  Number.is_nan z = false ->
  Number.ltb x y = false -> Number.ltb y z = false -> Number.ltb x z = false.
Proof.
  destruct x as [| s | m k], y as [| t | n j], z as [| u | p i];
    try discriminate; intros _ _ _;
    try (simpl; destruct s; simpl; intros; try discriminate;
         first [reflexivity | assumption | congruence]);
    try (simpl; destruct t; simpl; intros; try discriminate;
         first [reflexivity | assumption | congruence]);
    try (simpl; destruct u; simpl; intros; try discriminate;
         first [reflexivity | assumption | congruence]).
  all: try (simpl;
            repeat match goal with b : bool |- _ => destruct b end;
            simpl; intros; try discriminate; reflexivity).
  rewrite !ltb_finite. intros H1 H2.
  apply Z.ltb_ge in H1. apply Z.ltb_ge in H2. apply Z.ltb_ge.
  pose proof (pow10_pos k) as Pk. pose proof (pow10_pos j) as Pj.
  pose proof (pow10_pos i) as Pi.
  set (K := 10 ^ Z.of_nat k) in *. set (J := 10 ^ Z.of_nat j) in *.
  set (I := 10 ^ Z.of_nat i) in *.
  (* n*K <= m*J and p*J <= n*I give p*K <= m*I *)
  assert (n * K * I <= m * J * I) by (apply Z.mul_le_mono_nonneg_r; lia).
  assert (p * J * K <= n * I * K) by (apply Z.mul_le_mono_nonneg_r; lia).
  assert (p * K * J <= m * I * J) by lia.
  apply Z.mul_le_mono_pos_r in H3; [exact H3 | exact Pj].
Qed.

(** ** Device summaries *)

Lemma distinct_devices_In (d : db) (x : string) :
  In x (distinct_devices d) <->
  exists v, In v (violations d) /\ Violation.device v = x.
Proof.
  unfold distinct_devices. rewrite nodup_In, in_map_iff. split.
  - intros [v [Hx Hv]]. eauto.
  - intros [v [Hv Hx]]. eauto.
Qed.

Lemma summarize_device (d : db) (keys : list string) :
  map Summary.device (map (summarize d) keys) = keys.
Proof.
  induction keys as [| k keys IH]; simpl; [reflexivity |].
  rewrite IH. reflexivity.
Qed.

(** The device list is the summaries of the distinct devices, reordered. *)
Lemma stmtDevices_perm (d : db) :
  Permutation (map (summarize d) (distinct_devices d)) (stmtDevices_all d).
Proof.
  rewrite stmtDevices_is_by. apply sort_desc_by_perm.
Qed.

Lemma sum_perm (l l' : list Z) :
  Permutation l l' -> fold_right Z.add 0 l = fold_right Z.add 0 l'.
Proof.
  induction 1; simpl; lia.
Qed.

Lemma sum_indicator (x : string) (keys : list string) :
  NoDup keys -> In x keys ->
  fold_right Z.add 0
    (map (fun k => if String.eqb x k then 1 else 0) keys) = 1.
Proof.
  induction 1 as [| k keys Hk Hnd IH]; simpl; intros Hin; [contradiction |].
  destruct (String.eqb_spec x k) as [-> | Hne].
  - assert (Hzero : fold_right Z.add 0
                      (map (fun k' => if String.eqb k k' then 1 else 0) keys)
                    = 0).
    { clear IH Hnd Hin. induction keys as [| k' keys IH]; simpl; [reflexivity |].
      destruct (String.eqb_spec k k') as [-> | _].
      - exfalso. apply Hk. left. reflexivity.
      - rewrite IH; [reflexivity |]. intros H. apply Hk. right. exact H. }
    rewrite Hzero. reflexivity.
  - destruct Hin as [-> | Hin]; [contradiction |]. rewrite (IH Hin). reflexivity.
Qed.

(** Groups over distinct keys that cover the table partition it. *)
Lemma groups_partition (l : list Violation.t) (keys : list string) :
  NoDup keys ->
  (forall v, In v l -> In (Violation.device v) keys) ->
  fold_right Z.add 0
    (map (fun k =>
            Z.of_nat
              (List.length
                 (filter (fun v => String.eqb (Violation.device v) k) l)))
         keys)
  = Z.of_nat (List.length l).
Proof.
  intros Hnd. induction l as [| v l IH]; intros Hcover.
  - simpl. clear. induction keys as [| k keys IH]; simpl; [reflexivity |].
    rewrite IH. reflexivity.
  - assert (Hstep :
      fold_right Z.add 0
        (map (fun k =>
                Z.of_nat
                  (List.length
                     (filter (fun w => String.eqb (Violation.device w) k)
                             (v :: l))))
             keys)
      = fold_right Z.add 0
          (map (fun k => if String.eqb (Violation.device v) k then 1 else 0)
               keys)
        + fold_right Z.add 0
            (map (fun k =>
                    Z.of_nat
                      (List.length
                         (filter (fun w => String.eqb (Violation.device w) k)
                                 l)))
                 keys)).
    { clear. induction keys as [| k keys IH]; [reflexivity |].
      cbn [map fold_right]. rewrite IH. cbn [filter].
      destruct (String.eqb (Violation.device v) k); cbn [List.length];
        rewrite ?Nat2Z.inj_succ; lia. }
    rewrite Hstep, IH, sum_indicator.
    + cbn [List.length]. rewrite Nat2Z.inj_succ. lia.
    + exact Hnd.
    + apply Hcover. left. reflexivity.
    + intros w Hw. apply Hcover. right. exact Hw.
Qed.

(** X13: [stmtDevices] lists each device that has a record exactly once
    and no other device; its length is the COUNT(DISTINCT device) of the
    statistics, and its total_violations add up to the number of stored
    records. *)
Theorem X13_devices_partition_the_records (d : db) :
  NoDup (map Summary.device (stmtDevices_all d)) /\
  (forall x,
     In x (map Summary.device (stmtDevices_all d)) <->
     exists v, In v (violations d) /\ Violation.device v = x) /\
  count_distinct_device d = Z.of_nat (List.length (stmtDevices_all d)) /\
  fold_right Z.add 0 (map Summary.total_violations (stmtDevices_all d))
  = Z.of_nat (List.length (violations d)).
Proof.
  pose proof (stmtDevices_perm d) as Hperm.
  assert (Hdev : Permutation (distinct_devices d)
                   (map Summary.device (stmtDevices_all d))).
  { rewrite <- (summarize_device d (distinct_devices d)) at 1.
    apply Permutation_map. exact Hperm. }
  split; [| split; [| split]].
  - apply (Permutation_NoDup Hdev). apply NoDup_nodup.
  - intros x. rewrite <- distinct_devices_In. split; intros H.
    + apply (Permutation_in _ (Permutation_sym Hdev) H).
    + apply (Permutation_in _ Hdev H).
  - unfold count_distinct_device. f_equal.
    rewrite <- (Permutation_length Hperm). rewrite length_map. reflexivity.
  - rewrite <- (sum_perm _ _ (Permutation_map Summary.total_violations Hperm)).
    rewrite map_map. cbn [summarize Summary.total_violations].
    apply groups_partition.
    + apply NoDup_nodup.
    + intros v Hv. apply distinct_devices_In. eauto.
Qed.

(** The summaries of a reachable store, one by one. *)
Lemma stmtDevices_In (d : db) (s : Summary.t) :
  In s (stmtDevices_all d) ->
  s = summarize d (Summary.device s) /\
  exists v g, group d (Summary.device s) = v :: g.
Proof.
  intros Hs.
  apply (Permutation_in _ (Permutation_sym (stmtDevices_perm d))) in Hs.
  apply in_map_iff in Hs. destruct Hs as [k [<- Hk]].
  split; [reflexivity |]. cbn [summarize Summary.device].
  apply distinct_devices_In in Hk. destruct Hk as [v [Hv Hdev]].
  assert (Hin : In v (group d k)).
  { unfold group. apply filter_In. split; [exact Hv |].
    apply String.eqb_eq. exact Hdev. }
  destruct (group d k) as [| w g]; [contradiction | eauto].
Qed.

(** X14: in every store reached from the empty one, each row of
    [stmtDevices] counts at least one record; its max_speed is the speed
    of a record of the device and no record of the device is faster; its
    last_seen is the received_at of a record of the device and no record
    of the device was received later. *)
Theorem X14_device_aggregates
  (e : env) (rs : list (string * request)) (s : Summary.t) :
  let d := run e empty rs in
  In s (stmtDevices_all d) ->
  1 <= Summary.total_violations s /\
  (exists v, In v (violations d) /\
             Violation.device v = Summary.device s /\
             Violation.speed v = Summary.max_speed s) /\
  (exists v, In v (violations d) /\
             Violation.device v = Summary.device s /\
             Violation.received_at v = Summary.last_seen s) /\
  (forall v, In v (violations d) ->
             Violation.device v = Summary.device s ->
             Number.ltb (Summary.max_speed s) (Violation.speed v) = false /\
             String.ltb (Summary.last_seen s) (Violation.received_at v) = false).
Proof.
  intros d Hs.
  destruct (stmtDevices_In d s Hs) as [Heq [v0 [g Hg]]].
  set (k := Summary.device s) in *.
  assert (Hgroup : forall v, In v (v0 :: g) <->
                             In v (violations d) /\ Violation.device v = k).
  { intros v. rewrite <- Hg. unfold group. rewrite filter_In.
    rewrite String.eqb_eq. reflexivity. }
  assert (Hreal : Forall (fun a => Number.is_nan a = false)
                         (map Violation.speed (v0 :: g))).
  { destruct (run_well_formed e rs empty empty_well_formed) as [_ [_ Hreal]].
    fold d in Hreal. rewrite Forall_forall in Hreal |- *.
    intros a Ha. apply in_map_iff in Ha. destruct Ha as [v [<- Hv]].
    apply Hgroup in Hv. destruct Hv as [Hv _]. apply (Hreal v Hv). }
  rewrite Heq. unfold summarize. fold k. rewrite Hg.
  cbn [Summary.total_violations Summary.max_speed Summary.last_seen
       Summary.device map List.length].
  split; [lia |]. split; [| split].
  - pose proof (maximum_In Number.ltb (Violation.speed v0)
                  (map Violation.speed g)) as Hin.
    change (Violation.speed v0 :: map Violation.speed g)
      with (map Violation.speed (v0 :: g)) in Hin.
    apply in_map_iff in Hin. destruct Hin as [v [Hsp Hv]].
    apply Hgroup in Hv. destruct Hv as [Hv Hdev]. exists v. auto.
  - pose proof (maximum_In String.ltb (Violation.received_at v0)
                  (map Violation.received_at g)) as Hin.
    change (Violation.received_at v0 :: map Violation.received_at g)
      with (map Violation.received_at (v0 :: g)) in Hin.
    apply in_map_iff in Hin. destruct Hin as [v [Hsp Hv]].
    apply Hgroup in Hv. destruct Hv as [Hv Hdev]. exists v. auto.
  - intros v Hv Hdev.
    assert (Hin : In v (v0 :: g)) by (apply Hgroup; auto).
    split.
    + apply (maximum_upper Number.ltb (fun a => Number.is_nan a = false)
               number_ltb_asym number_ge_trans
               (Violation.speed v0) (map Violation.speed g) Hreal).
      change (In (Violation.speed v) (map Violation.speed (v0 :: g))).
      apply in_map. exact Hin.
    + apply (maximum_upper String.ltb (fun _ => True)
               (fun x y _ _ => string_ltb_asym x y)
               (fun x y z _ _ _ => string_ge_trans x y z)
               (Violation.received_at v0) (map Violation.received_at g)).
      * rewrite Forall_forall. auto.
      * change (In (Violation.received_at v)
                   (map Violation.received_at (v0 :: g))).
        apply in_map. exact Hin.
Qed.

(** X14 on the store of two accepted POSTs, for the device "D1". *)
Lemma X14_device_aggregates_witness :
  exists s,
    In s (stmtDevices_all (run (mkenv None) empty Example.two_posts)) /\
    Summary.device s = "D1" /\ 1 <= Summary.total_violations s.
Proof.
  eexists. split; [right; left; reflexivity |].
  split; [reflexivity |].
  match goal with
  | |- 1 <= Summary.total_violations ?s =>
      apply (X14_device_aggregates (mkenv None) Example.two_posts s)
  end.
  right. left. reflexivity.
Defined.

(** X15: [stmtDevices] lists the devices by last_seen, the most recently
    seen first. *)
Theorem X15_devices_are_listed_most_recent_first (d : db) :
  StronglySorted not_seen_before (stmtDevices_all d).
Proof.
  rewrite stmtDevices_is_by. apply (sort_desc_by_sorted Summary.last_seen).
Qed.

(** ** Statistics and conversions *)

Lemma count_tier_snoc (t : string) (l : list Violation.t) (v : Violation.t) :
  count_tier t (l ++ [v])
  = count_tier t l + (if String.eqb (Violation.tier v) t then 1 else 0).
Proof.
  unfold count_tier. rewrite filter_app, length_app. cbn [filter].
  destruct (String.eqb (Violation.tier v) t); cbn [List.length]; lia.
Qed.

(** X16: a POST answered 201 raises the total of the statistics by one
    and the count of the submitted tier by one, and leaves the counts of
    the other tiers as they were. *)
Theorem X16_created_record_is_counted_once
  (now : string) (d : db) (body : object) (id : Z) (t : string) :
  sent (post_violation now d body) = Json 201 (Created id) ->
  get body "tier" = Str t ->
  let d' := store (post_violation now d body) in
  total (stmtStats_get d') = total (stmtStats_get d) + 1 /\
  forall t', In t' tiers ->
    sum_case_tier t' (violations d')
    = Some (count_tier t' (violations d)
            + (if String.eqb t t' then 1 else 0)).
Proof.
  intros Hcreated Htier d'.
  destruct (post_created_record now d body id Hcreated)
    as [v [r [_ [_ [_ [Ht [_ [_ [_ [_ [_ [_ [_ [_ [_ [Hstore _]]]]]]]]]]]]]]]].
  rewrite Htier in Ht. inversion Ht as [Htv]. clear Ht.
  unfold d'. rewrite Hstore. unfold stmtStats_get.
  cbn [violations total]. split.
  - rewrite length_app. cbn [List.length]. lia.
  - intros t' _. unfold sum_case_tier.
    destruct (violations d ++ [v])%list eqn:E.
    + destruct (violations d); discriminate.
    + rewrite <- E, count_tier_snoc, <- Htv. reflexivity.
Qed.

(** X16 at the first POST on an empty store. *)
Lemma X16_created_record_is_counted_once_witness :
  total (stmtStats_get Example.one_severe) = 1 /\
  severe (stmtStats_get Example.one_severe) = Some 1.
Proof.
  destruct (X16_created_record_is_counted_once Sample.noon empty Sample.severe
              1 "SEVERE" eq_refl eq_refl) as [Htotal Hcount].
  split; [exact Htotal |].
  apply (Hcount "SEVERE"). simpl. tauto.
Defined.

Lemma ToString_primitive (v : value) :
  primitive v -> exists s, ToString v = Some s.
Proof.
  destruct v as [| | [|] | n | s | l | o]; simpl; intros H;
    try contradiction; eauto.
Qed.

Lemma parseFloat_primitive (v : value) :
  primitive v -> exists n, parseFloat v = Some n.
Proof.
  intros H. destruct v as [| | b | n | s | l | o]; try contradiction;
    try (eexists; reflexivity).
  destruct b; eexists; reflexivity.
Qed.

(** X17: a POST whose excess, lat and lon are absent or primitive values
    (null, booleans, numbers, strings) never throws: it is answered 400,
    201 or 500.  An excess object with an own [toString] property passes
    validation and makes the handler throw, outside its try block. *)
Theorem X17_primitive_payload_never_throws
  (now : string) (d : db) (body : object) :
  (primitive (get body "excess") -> primitive (get body "lat") ->
   primitive (get body "lon") ->
   exists status b, sent (post_violation now d body) = Json status b /\
                    (status = 400 \/ status = 201 \/ status = 500)) /\
  validateViolation Example.excess_object = [] /\
  post_violation now d Example.excess_object = mkoutcome Throws [] d.
Proof.
  split; [| split; reflexivity].
  intros Hex Hlat Hlon.
  destruct (validateViolation body) eqn:Hval.
  - destruct (post_valid_cases now d body Hval)
      as [[Hrow _] | [[r [err [_ [_ Hp]]]] | [r [d' [id [line [_ [_ Hp]]]]]]]].
    + exfalso.
      apply validate_passes in Hval.
      destruct Hval as [s [l [t [Hs [Hl [Ht _]]]]]].
      unfold make_row in Hrow. rewrite Hs, Hl, Ht in Hrow.
      cbn [parseFloat and_then ToString option_map minus ToNumber] in Hrow.
      assert (Hx : exists n,
                 and_then (if nullish (get body "excess")
                           then Some (Num (Number.sub s l))
                           else Some (get body "excess")) parseFloat = Some n).
      { destruct (nullish (get body "excess")); cbn [and_then].
        - eexists. reflexivity.
        - apply parseFloat_primitive. exact Hex. }
      assert (Hopt : forall q, primitive q ->
                 exists c,
                   (if negb (nullish (default q Null))
                    then option_map Some (parseFloat (default q Null))
                    else Some None) = Some c).
      { intros q Hq. destruct (nullish (default q Null)); cbn [negb];
          [eexists; reflexivity |].
        destruct (parseFloat_primitive (default q Null)) as [n Hn].
        - destruct q; simpl; auto.
        - rewrite Hn. eexists. reflexivity. }
      destruct Hx as [n Hn].
      destruct (Hopt _ Hlat) as [c1 Hc1]. destruct (Hopt _ Hlon) as [c2 Hc2].
      unfold and_then in Hn, Hrow.
      destruct (if nullish (get body "excess")
                then Some (Num (Number.sub s l))
                else Some (get body "excess")) as [x' |]; [| discriminate].
      rewrite Hn, Hc1, Hc2 in Hrow. discriminate.
    + rewrite Hp. simpl. eauto 6.
    + rewrite Hp. simpl. eauto 6.
  - rewrite post_rejected by (rewrite Hval; discriminate). simpl. eauto 6.
Qed.

(** X17 at [{device:"D1", speed:80, limit:50, tier:"SEVERE"}]. *)
Lemma X17_primitive_payload_never_throws_witness :
  exists status b,
    sent (post_violation Sample.noon empty Sample.severe) = Json status b /\
    (status = 400 \/ status = 201 \/ status = 500).
Proof.
  apply (proj1 (X17_primitive_payload_never_throws Sample.noon empty
                  Sample.severe)); exact I.
Defined.
